(** * sw.js: the request-routing and cache-consistency engine of the CFM
      service worker, embedded and verified.

    The development follows the layout of [src/sw.js]:
    - platform values (strings, headers, responses, requests, the Date codec);
    - the partition store ([CacheStorage]: named caches in creation order);
    - a small reader/state/error monad [Async] for the asynchronous handlers;
    - the lifecycle handlers ([install], [activate]), the four strategies,
      the fetch listener (router) and the control channel ([onMessage]);
    - the properties of the specification, one theorem per claim.

    Conventions of the model.  A handler is run to quiescence: the final
    world holds the effects of the promises it left unawaited as well, and
    [awaited] tells whether its own result waited for the network.  The
    network is a function from URLs to outcomes, answering at one instant.
    A cache compares URLs without their fragment; [cache.put] refuses a
    request that is not a GET over http(s), a 206 answer and an answer with
    [Vary: *]; [cache.addAll] refuses in addition an answer that is not
    [ok] and a batch naming one URL twice; a lookup with a request that is
    not a GET finds nothing.  Requests are told apart by method and URL:
    two requests for one URL are taken to carry the same header values, so
    that a [Vary] other than [*] never keeps an entry from a lookup.
    [console.log] is not modelled. *)

From Stdlib Require Import ZArith QArith DecimalString DecimalZ String Ascii List Bool Lia.
From stdpp Require Import gmap strings list fin_maps.

Local Open Scope string_scope.
Local Open Scope list_scope.
Local Open Scope Z_scope.

(* ===================================================================== *)
(** ** JavaScript strings *)
(* ===================================================================== *)

Module JS.

(** [s.includes(sub)]: [sub] occurs somewhere in [s]. *)
Fixpoint includes (s sub : string) : bool :=
  String.prefix sub s ||
  match s with
  | EmptyString => false
  | String _ rest => includes rest sub
  end.

(** [s] ends with [suffix]; the meaning of a regular expression of the form
    [/...$/] whose body is a fixed alternative of literals. *)
Definition endsWith (s suffix : string) : bool :=
  (String.length suffix <=? String.length s)%nat &&
  String.eqb
    (String.substring (String.length s - String.length suffix)
                      (String.length suffix) s)
    suffix.

(** ASCII lower-casing, as the Headers object applies it to header names. *)
Definition lower_ascii (c : ascii) : ascii :=
  let n := nat_of_ascii c in
  if ((65 <=? n) && (n <=? 90))%nat then ascii_of_nat (n + 32) else c.

Fixpoint toLowerCase (s : string) : string :=
  match s with
  | EmptyString => EmptyString
  | String c rest => String (lower_ascii c) (toLowerCase rest)
  end.

(** [array.includes(x)] on an array of strings. *)
Definition array_includes (xs : list string) (x : string) : bool :=
  bool_decide (x ∈ xs).

(** A serialised URL without its fragment: the text before the first [#]. *)
Fixpoint strip_fragment (s : string) : string :=
  match s with
  | EmptyString => EmptyString
  | String c rest =>
      if Ascii.eqb c "#"%char then EmptyString else String c (strip_fragment rest)
  end.

(** The pieces of a text between the occurrences of a separator. *)
Fixpoint split (sep : ascii) (s : string) : list string :=
  match s with
  | EmptyString => [EmptyString]
  | String c rest =>
      if Ascii.eqb c sep then EmptyString :: split sep rest
      else match split sep rest with
           | [] => [String c EmptyString]
           | first :: others => String c first :: others
           end
  end.

Definition is_space (c : ascii) : bool :=
  Ascii.eqb c " "%char || Ascii.eqb c "009"%char.

Fixpoint drop_spaces (cs : list ascii) : list ascii :=
  match cs with
  | c :: rest => if is_space c then drop_spaces rest else cs
  | [] => []
  end.

(** A header value without the blanks around it. *)
Definition trim (s : string) : string :=
  string_of_list_ascii
    (rev (drop_spaces (rev (drop_spaces (list_ascii_of_string s))))).

End JS.

(* ===================================================================== *)
(** ** The Date codec of the platform *)
(* ===================================================================== *)

(** Instants are milliseconds since the epoch.  [toISOString] renders an
    instant as the text stored in a header, [parseDate] is the [Date]
    constructor applied to such a text ([None] is the Invalid Date).  The
    engine relies on nothing but the round trip, so the codec is an
    interface; [decimal_dates] below is an executable instance of it. *)
Class DateCodec := {
  toISOString : Z → string;
  parseDate : string → option Z;
  parse_toISOString : ∀ t, parseDate (toISOString t) = Some t
}.

(* ===================================================================== *)
(** ** Responses and requests *)
(* ===================================================================== *)

Module Http.

(** Headers: an ordered mapping from lower-cased names to values. *)
Abbreviation Headers := (list (string * string)).

Fixpoint headers_get (name : string) (h : Headers) : option string :=
  match h with
  | [] => None
  | (k, v) :: rest =>
      if decide (k = JS.toLowerCase name) then Some v else headers_get name rest
  end.

Definition headers_delete (name : string) (h : Headers) : Headers :=
  filter (λ kv, kv.1 ≠ JS.toLowerCase name) h.

(** [headers.set(name, value)]: the first occurrence is replaced, further
    ones are dropped; an absent name is appended. *)
Fixpoint headers_set (name value : string) (h : Headers) : Headers :=
  match h with
  | [] => [(JS.toLowerCase name, value)]
  | (k, v) :: rest =>
      if decide (k = JS.toLowerCase name)
      then (k, value) :: headers_delete name rest
      else (k, v) :: headers_set name value rest
  end.

Record Response := mkResponse {
  status : Z;
  statusText : string;
  headers : Headers;
  body : string
}.

(** [response.ok]: the status is in the range 200-299. *)
Definition ok (r : Response) : bool :=
  ((200 <=? status r) && (status r <=? 299))%Z.

(** The answer has a [Vary] header one of whose fields is [*]. *)
Definition vary_any (r : Response) : bool :=
  match headers_get "Vary" (headers r) with
  | Some v => existsb (λ field, String.eqb (JS.trim field) "*") (JS.split ","%char v)
  | None => false
  end.

(** An answer that a cache accepts to store: not a partial (206) answer and
    not one that varies on everything. *)
Definition storable_response (r : Response) : bool :=
  negb (status r =? 206)%Z && negb (vary_any r).

(** What [new URL(request.url)] exposes. *)
Record URL := mkURL {
  protocol : string;
  href : string;
  origin : string;
  host : string;
  pathname : string;
  search : string
}.

(** A request descriptor.  [request.url] is the serialised URL, and parsing
    it again yields the same text as [href]. *)
Record Request := mkRequest {
  method : string;
  parsed : URL;
  mode : string
}.

Definition request_url (r : Request) : string := href (parsed r).

Definition is_get (r : Request) : bool := String.eqb (method r) "GET".

(** A request that a cache accepts as a key: a GET over http or https. *)
Definition storable_request (r : Request) : bool :=
  is_get r &&
  (String.eqb (protocol (parsed r)) "http:" ||
   String.eqb (protocol (parsed r)) "https:").

(** [cache.put(request, response)] is accepted. *)
Definition storable (request : Request) (r : Response) : bool :=
  storable_request request && storable_response r.

Inductive FetchResult :=
  | NetResponse (r : Response)
  | NetError (reason : string).

End Http.
Export Http.

(* ===================================================================== *)
(** ** The partition store *)
(* ===================================================================== *)

(** [CacheStorage] keeps its named caches in creation order: [caches.keys()]
    lists them in that order and [caches.match] searches them in that order.
    One cache maps a key, the URL of a GET request without its fragment, to
    the stored response. *)
Module Store.

Definition cache_key (url : string) : string := JS.strip_fragment url.
#[global] Arguments cache_key : simpl never.

Abbreviation CacheStorage := (list (string * gmap string Response)).

Fixpoint find_cache (name : string) (cs : CacheStorage)
  : option (gmap string Response) :=
  match cs with
  | [] => None
  | (n, c) :: rest => if decide (n = name) then Some c else find_cache name rest
  end.

(** [caches.open(name)]: an absent cache is created, empty, at the end. *)
Definition open (name : string) (cs : CacheStorage) : CacheStorage :=
  match find_cache name cs with
  | Some _ => cs
  | None => cs ++ [(name, ∅)]
  end.

(** [caches.keys()]. *)
Definition keys (cs : CacheStorage) : list string := cs.*1.

(** [caches.delete(name)]. *)
Definition delete (name : string) (cs : CacheStorage) : CacheStorage :=
  filter (λ p, p.1 ≠ name) cs.

(** [caches.match(url)], a GET of a URL text: the first hit over all
    caches. *)
Fixpoint match_any (url : string) (cs : CacheStorage) : option Response :=
  match cs with
  | [] => None
  | (_, c) :: rest =>
      match c !! cache_key url with
      | Some r => Some r
      | None => match_any url rest
      end
  end.

(** [cache.match(url)] on the cache called [name]. *)
Definition match_in (name url : string) (cs : CacheStorage) : option Response :=
  c ← find_cache name cs; c !! cache_key url.

(** [caches.match(request)] and [cache.match(request)]: a request that is
    not a GET finds nothing. *)
Definition match_request_any (request : Request) (cs : CacheStorage)
  : option Response :=
  if is_get request then match_any (request_url request) cs else None.

Definition match_request_in (name : string) (request : Request)
    (cs : CacheStorage) : option Response :=
  if is_get request then match_in name (request_url request) cs else None.

(** The write of an accepted [cache.put] on the cache called [name]: the
    entry of the URL is replaced. *)
Fixpoint put (name url : string) (r : Response) (cs : CacheStorage)
  : CacheStorage :=
  match cs with
  | [] => []
  | (n, c) :: rest =>
      if decide (n = name) then (n, <[cache_key url := r]> c) :: rest
      else (n, c) :: put name url r rest
  end.

(** [cache.putAll]: the entries of a batch, stored in order. *)
Definition put_all (name : string) (entries : list (string * Response))
    (cs : CacheStorage) : CacheStorage :=
  foldl (λ acc kv, put name kv.1 kv.2 acc) cs entries.

End Store.

(* ===================================================================== *)
(** ** The world of the worker and the [Async] monad *)
(* ===================================================================== *)

Definition Client := nat.
Definition Port := nat.

(** Messages posted to window clients, by their [type] discriminator. *)
Inductive ClientMessage :=
  | SW_ACTIVATED (version timestamp : string)
  | DATA_UPDATED (message timestamp : string).

(** Replies posted on a message port of the control channel. *)
Inductive Reply :=
  | CacheInfo (names : list string) (version : string)
  | Status (status : string).

Record Notification := mkNotification {
  title : string;
  text : string;
  tag : string
}.

(** The mutable state a handler runs against. *)
Record World := mkWorld {
  caches : Store.CacheStorage;
  clock : Z;                              (* current instant, in ms *)
  awaited : bool;                         (* the task has waited on the network *)
  requested : list string;                (* URLs handed to fetch, in order *)
  controlled : list Client;               (* clients this worker controls *)
  outbox : list (Client * ClientMessage); (* client.postMessage, in order *)
  replies : list (Port * Reply);          (* port.postMessage, in order *)
  shown : list Notification;              (* registration.showNotification *)
  localStorage : option (gmap string string); (* None: no such global *)
  skippedWaiting : bool
}.

(** The field [lastUpdate] of a JSON document: absent, a text, or a value
    of another kind (a number say), given by its conversion to text. *)
Inductive JsonField :=
  | Absent
  | Text (s : string)
  | NotText (rendering : string).

(** What a handler reads but does not change. *)
Record Env := mkEnv {
  location_origin : string;        (* [self.location.origin] *)
  resolve : string → string;       (* a URL text resolved against the worker's base *)
  network : string → FetchResult;  (* outcome of fetching a URL *)
  responded_at : Z;                (* instant at which the network answers *)
  inScope : list Client;           (* window clients in the worker's scope *)
  lastUpdateOf : string → option JsonField
    (* [response.json()] then [.lastUpdate] on a body: [None] when either
       throws (a parse error, the document [null]) *)
}.

Inductive Outcome (A : Type) :=
  | Returned (a : A)
  | Thrown (error : string).
Arguments Returned {A} a.
Arguments Thrown {A} error.

Definition Async (A : Type) : Type := Env → World → Outcome A * World.

#[export] Instance async_ret : MRet Async := λ A a _ w, (Returned a, w).

#[export] Instance async_bind : MBind Async := λ A B f m env w,
  match m env w with
  | (Returned a, w') => f a env w'
  | (Thrown e, w') => (Thrown e, w')
  end.

Definition throw {A} (error : string) : Async A := λ _ w, (Thrown error, w).

(** [try { body } catch (error) { handler }]; also [promise.catch(handler)]. *)
Definition try_catch {A} (body : Async A) (handler : string → Async A)
  : Async A := λ env w,
  match body env w with
  | (Returned a, w') => (Returned a, w')
  | (Thrown e, w') => handler e env w'
  end.

Definition set_caches (f : Store.CacheStorage → Store.CacheStorage) (w : World)
  : World :=
  mkWorld (f (caches w)) (clock w) (awaited w) (requested w) (controlled w) (outbox w)
          (replies w) (shown w) (localStorage w) (skippedWaiting w).

(** A promise that nobody awaits: its effects on the store and on the
    clients take place, its outcome is dropped, and the task that started
    it goes on at its own instant without having waited. *)
Definition detach {A} (p : Async A) : Async unit := λ env w,
  let w' := (p env w).2 in
  (Returned tt,
   mkWorld (caches w') (clock w) (awaited w) (requested w') (controlled w') (outbox w')
           (replies w') (shown w') (localStorage w') (skippedWaiting w')).

(** [await fetch(url)]: time passes until the network answers. *)
Definition fetch (url : string) : Async Response := λ env w,
  let w' := mkWorld (caches w) (responded_at env) true (requested w ++ [url]) (controlled w)
                    (outbox w) (replies w) (shown w) (localStorage w)
                    (skippedWaiting w) in
  match network env url with
  | NetResponse r => (Returned r, w')
  | NetError e => (Thrown e, w')
  end.

(** The absolute URL of a URL text, as [new Request(text)] computes it. *)
Definition resolveURL (text : string) : Async string := λ env w,
  (Returned (resolve env text), w).

(** [self.location.origin]. *)
Definition self_location_origin : Async string := λ env w,
  (Returned (location_origin env), w).

(** [new Date()], as an instant. *)
Definition new_Date : Async Z := λ _ w, (Returned (clock w), w).

Definition modify_caches (f : Store.CacheStorage → Store.CacheStorage)
  : Async unit := λ _ w, (Returned tt, set_caches f w).

Definition caches_open (name : string) : Async unit :=
  modify_caches (Store.open name).

Definition caches_keys : Async (list string) := λ _ w,
  (Returned (Store.keys (caches w)), w).

Definition caches_delete (name : string) : Async unit :=
  modify_caches (Store.delete name).

(** [caches.match(request)]. *)
Definition caches_match (request : Request) : Async (option Response) := λ _ w,
  (Returned (Store.match_request_any request (caches w)), w).

(** [cache.match(request)]. *)
Definition cache_match (name : string) (request : Request)
  : Async (option Response) := λ _ w,
  (Returned (Store.match_request_in name request (caches w)), w).

(** [cache.match(url)], for a URL text. *)
Definition cache_match_url (name url : string) : Async (option Response) :=
  λ _ w, (Returned (Store.match_in name url (caches w)), w).

(** [cache.put(request, response)]: rejects what the cache does not accept. *)
Definition cache_put (name : string) (request : Request) (r : Response)
  : Async unit :=
  if storable request r
  then modify_caches (Store.put name (request_url request) r)
  else throw "TypeError: Failed to execute 'put' on 'Cache'".

(** [cache.put(url, response)], for a URL text of the worker's own site. *)
Definition cache_put_url (name url : string) (r : Response) : Async unit :=
  if storable_response r
  then modify_caches (Store.put name url r)
  else throw "TypeError: Failed to execute 'put' on 'Cache'".

(** A promise observed through its outcome, as [Promise.all] observes the
    promises it is given. *)
Definition settle {A} (p : Async A) : Async (Outcome A) := λ env w,
  (Returned (p env w).1, (p env w).2).

Fixpoint fetch_all (urls : list string)
  : Async (list (string * Outcome Response)) :=
  match urls with
  | [] => mret []
  | url :: rest =>
      u ← resolveURL url;
      o ← settle (fetch u);
      os ← fetch_all rest;
      mret ((u, o) :: os)
  end.

Definition ok_entry (uo : string * Outcome Response)
  : option (string * Response) :=
  match uo.2 with
  | Returned r => if ok r && storable_response r then Some (uo.1, r) else None
  | Thrown _ => None
  end.

(** [cache.addAll(urls)]: every URL is fetched; unless every fetch answers
    with an [ok] response that the cache accepts, and no two URLs are the
    same key, the call rejects and stores nothing. *)
Definition cache_addAll (name : string) (urls : list string) : Async unit :=
  results ← fetch_all urls;
  match mapM ok_entry results with
  | Some entries =>
      if bool_decide (NoDup (Store.cache_key <$> entries.*1))
      then modify_caches (Store.put_all name entries)
      else throw "InvalidStateError: Failed to execute 'addAll' on 'Cache'"
  | None => throw "TypeError: Failed to execute 'addAll' on 'Cache': Request failed"
  end.

(** [array.forEach(f)] and [Promise.all(array.map(f))] over effects that do
    not fail. *)
Fixpoint for_each {A} (f : A → Async unit) (xs : list A) : Async unit :=
  match xs with
  | [] => mret tt
  | x :: rest => f x ;; for_each f rest
  end.

Definition postMessage (c : Client) (m : ClientMessage) : Async unit := λ _ w,
  (Returned tt,
   mkWorld (caches w) (clock w) (awaited w) (requested w) (controlled w)
           (outbox w ++ [(c, m)]) (replies w) (shown w) (localStorage w)
           (skippedWaiting w)).

(** [self.clients.claim()]: every client in scope becomes controlled. *)
Definition clients_claim : Async unit := λ env w,
  (Returned tt,
   mkWorld (caches w) (clock w) (awaited w) (requested w) (inScope env) (outbox w)
           (replies w) (shown w) (localStorage w) (skippedWaiting w)).

(** [self.clients.matchAll()]: the controlled clients. *)
Definition clients_matchAll : Async (list Client) := λ _ w,
  (Returned (controlled w), w).

Definition skipWaiting : Async unit := λ _ w,
  (Returned tt,
   mkWorld (caches w) (clock w) (awaited w) (requested w) (controlled w) (outbox w)
           (replies w) (shown w) (localStorage w) true).

Definition showNotification (n : Notification) : Async unit := λ _ w,
  (Returned tt,
   mkWorld (caches w) (clock w) (awaited w) (requested w) (controlled w) (outbox w)
           (replies w) (shown w ++ [n]) (localStorage w) (skippedWaiting w)).

(** [event.ports[0].postMessage(reply)]; without a port the property access
    on [undefined] throws. *)
Definition port_postMessage (ports : list Port) (reply : Reply) : Async unit :=
  λ _ w,
  match ports with
  | [] => (Thrown "TypeError: event.ports[0] is undefined", w)
  | p :: _ =>
      (Returned tt,
       mkWorld (caches w) (clock w) (awaited w) (requested w) (controlled w) (outbox w)
               (replies w ++ [(p, reply)]) (shown w) (localStorage w)
               (skippedWaiting w))
  end.

Definition localStorage_getItem (key : string) : Async (option string) :=
  λ _ w,
  match localStorage w with
  | None => (Thrown "ReferenceError: localStorage is not defined", w)
  | Some m => (Returned (m !! key), w)
  end.

Definition localStorage_setItem (key value : string) : Async unit := λ _ w,
  match localStorage w with
  | None => (Thrown "ReferenceError: localStorage is not defined", w)
  | Some m =>
      (Returned tt,
       mkWorld (caches w) (clock w) (awaited w) (requested w) (controlled w) (outbox w)
               (replies w) (shown w) (Some (<[key := value]> m))
               (skippedWaiting w))
  end.

(** [await response.json()] followed by reading [data.lastUpdate]. *)
Definition json_lastUpdate (r : Response) : Async JsonField := λ env w,
  match lastUpdateOf env (body r) with
  | None => (Thrown "SyntaxError: invalid JSON", w)
  | Some field => (Returned field, w)
  end.

(* ===================================================================== *)
(** ** The service worker *)
(* ===================================================================== *)

Definition CACHE_NAME : string := "cfm-updates-v3.0".
Definition STATIC_CACHE : string := "cfm-static-v3.0".
Definition API_CACHE : string := "cfm-api-v3.0".
Definition OFFLINE_CACHE : string := "cfm-offline-v3.0".

Definition STATIC_ASSETS : list string := [
  "./";
  "./index.html";
  "./offline.html";
  "./termos.html";
  "./politicas.html";
  "./sound.mp3";
  "./manifest.json";
  "./icon-192.png";
  "./icon-512.png";
  "./pwa-fullscreen.css";
  "https://fonts.googleapis.com/css2?family=Roboto:wght@300;400;500;700&display=swap";
  "https://cdnjs.cloudflare.com/ajax/libs/font-awesome/6.4.0/css/all.min.css";
  "./fallback-logo.png";
  "./fallback-bg.jpg"
].

(** The double quote, which the markup of the offline page uses. *)
Definition dq : string := String "034"%char EmptyString.

(** The markup of the offline page, as the template literal of the install
    handler spells it. *)
Definition offline_html : string :=
  ("<!DOCTYPE html>
        <html lang=" ++ dq ++
    "pt-MZ" ++ dq ++
    ">
        <head>
          <meta charset=" ++ dq ++
    "UTF-8" ++ dq ++
    ">
          <meta name=" ++ dq ++
    "viewport" ++ dq ++
    " content=" ++ dq ++
    "width=device-width, initial-scale=1.0" ++ dq ++
    ">
          <title>CFM - Offline</title>
          <style>
            body {
              margin: 0;
              padding: 20px;
              background: linear-gradient(135deg, #4CAF50 0%, #2E7D32 100%);
              color: white;
              font-family: Roboto, sans-serif;
              height: 100vh;
              display: flex;
              flex-direction: column;
              justify-content: center;
              align-items: center;
              text-align: center;
            }
            .logo {
              width: 120px;
              height: 120px;
              margin-bottom: 30px;
              background: white;
              border-radius: 20px;
              display: flex;
              align-items: center;
              justify-content: center;
              font-size: 48px;
              color: #4CAF50;
            }
            h1 {
              margin: 0 0 20px 0;
              font-size: 24px;
            }
            p {
              margin: 0 0 30px 0;
              opacity: 0.9;
              max-width: 300px;
            }
            .status {
              background: rgba(255,255,255,0.2);
              padding: 10px 20px;
              border-radius: 10px;
              margin-top: 20px;
            }
          </style>
        </head>
        <body>
          <div class=" ++ dq ++
    "logo" ++ dq ++
    ">🚆</div>
          <h1>CFM Actualizações</h1>
          <p>Você está offline. As actualizações serão carregadas quando a conexão voltar.</p>
          <div class=" ++ dq ++
    "status" ++ dq ++
    ">Modo Offline Activo</div>
        </body>
        </html>")%string.

(** The offline page built by the install handler. *)
Definition offlineResponse : Response := {|
  status := 200;
  statusText := "";
  headers := [("content-type", "text/html; charset=utf-8"); ("x-offline", "true")];
  body := offline_html
|}.

Section Worker.
Context `{DateCodec}.

(** *** Installation *)

Definition install : Async unit :=
  caches_open STATIC_CACHE ;;
  caches_open OFFLINE_CACHE ;;
  cache_addAll STATIC_CACHE STATIC_ASSETS ;;
  key ← resolveURL "./offline.html";
  cache_put_url OFFLINE_CACHE key offlineResponse ;;
  skipWaiting.

(** *** Activation *)

(** Every existing cache whose name is not in [allow] is deleted. *)
Definition prune (allow : list string) : Async unit :=
  cacheNames ← caches_keys;
  for_each (λ cacheName,
              if negb (JS.array_includes allow cacheName)
              then caches_delete cacheName
              else mret tt)
           cacheNames.

Definition activate : Async unit :=
  prune [CACHE_NAME; STATIC_CACHE; API_CACHE; OFFLINE_CACHE] ;;
  clients_claim ;;
  clients ← clients_matchAll;
  for_each (λ client,
              now ← new_Date;
              postMessage client (SW_ACTIVATED "3.0" (toISOString now)))
           clients.

(** *** Strategies *)

Definition is_html (r : Response) : bool :=
  match headers_get "Content-Type" (headers r) with
  | Some v => JS.includes v "text/html"
  | None => false
  end.

(** 1. Navigation: network first, then any cache, then the offline page. *)
Definition handleNavigation (request : Request) : Async (option Response) :=
  try_catch
    (networkResponse ← fetch (request_url request);
     (if is_html networkResponse
      then caches_open CACHE_NAME ;;
           cache_put CACHE_NAME request networkResponse
      else mret tt) ;;
     mret (Some networkResponse))
    (λ error,
       cachedResponse ← caches_match request;
       match cachedResponse with
       | Some r => mret (Some r)
       | None =>
           caches_open OFFLINE_CACHE ;;
           key ← resolveURL "./offline.html";
           cache_match_url OFFLINE_CACHE key
       end).

(** 2. Static resources: cache first, refreshed from the network. *)
Definition cacheFirstWithUpdate (request : Request) : Async (option Response) :=
  cachedResponse ← caches_match request;
  let fetchPromise : Async (option Response) :=
    try_catch
      (networkResponse ← fetch (request_url request);
       (if status networkResponse =? 200
        then caches_open STATIC_CACHE ;;
             cache_put STATIC_CACHE request networkResponse
        else mret tt) ;;
       mret (Some networkResponse))
      (λ error, mret None) in
  match cachedResponse with
  | Some r =>
      (* the extra [.catch(console.error)] attaches to a promise that has
         its failures handled already; either way the promise runs on *)
      (if negb (JS.includes (request_url request) "chrome-extension")
       then detach (try_catch fetchPromise (λ error, mret None))
       else detach fetchPromise) ;;
      mret (Some r)
  | None => fetchPromise
  end.

Definition notifyAboutUpdate : Async unit :=
  clients ← clients_matchAll;
  for_each (λ client,
              now ← new_Date;
              postMessage client
                (DATA_UPDATED "Dados atualizados disponíveis" (toISOString now)))
           clients.

(** 3. API: stale while revalidate. *)
Definition staleWhileRevalidate (request : Request) : Async (option Response) :=
  caches_open API_CACHE ;;
  cachedResponse ← cache_match API_CACHE request;
  let fetchPromise : Async (option Response) :=
    try_catch
      (networkResponse ← fetch (request_url request);
       (if status networkResponse =? 200
        then cache_put API_CACHE request networkResponse ;;
             if JS.includes (request_url request) "script.google.com"
             then detach notifyAboutUpdate
             else mret tt
        else mret tt) ;;
       mret (Some networkResponse))
      (λ error, mret None) in
  match cachedResponse with
  | Some r => detach (try_catch fetchPromise (λ error, mret None)) ;;
              mret (Some r)
  | None => fetchPromise
  end.

(** [new Date(headers.get(name))]: a missing header is [null], which the
    Date constructor reads as the epoch; a text is parsed. *)
Definition date_of_header (value : option string) : option Z :=
  match value with
  | None => Some 0
  | Some s => parseDate s
  end.

(** [minutesDiff < 5] for [minutesDiff = (now - cachedTime) / (1000 * 60)];
    a comparison with the Invalid Date is false. *)
Definition is_recent (now : Z) (cachedResponse : Response) : bool :=
  match date_of_header (headers_get "sw-cached-time" (headers cachedResponse)) with
  | Some cachedTime =>
      let minutesDiff := (inject_Z (now - cachedTime) / inject_Z (1000 * 60))%Q in
      negb (Qle_bool 5 minutesDiff)
  | None => false
  end.

(** The response rebuilt with the time of caching in its headers. *)
Definition with_cached_time (networkResponse : Response) (now : Z) : Response := {|
  status := status networkResponse;
  statusText := statusText networkResponse;
  headers := headers_set "sw-cached-time" (toISOString now) (headers networkResponse);
  body := body networkResponse
|}.

(** 4. Google Apps Script: cache for five minutes. *)
Definition handleGoogleScript (request : Request) : Async (option Response) :=
  caches_open API_CACHE ;;
  cachedResponse ← cache_match API_CACHE request;
  let from_network : Async (option Response) :=
    try_catch
      (networkResponse ← fetch (request_url request);
       if ok networkResponse
       then now ← new_Date;
            let response := with_cached_time networkResponse now in
            cache_put API_CACHE request response ;;
            mret (Some response)
       else throw "Network response not ok")
      (λ error,
         match cachedResponse with
         | Some r => mret (Some r)
         | None => throw error
         end) in
  match cachedResponse with
  | Some r =>
      now ← new_Date;
      if is_recent now r
      then detach
             (try_catch
                (networkResponse ← fetch (request_url request);
                 if ok networkResponse
                 then now' ← new_Date;
                      cache_put API_CACHE request
                                (with_cached_time networkResponse now')
                 else mret tt)
                (λ error, mret tt)) ;;
           mret (Some r)
      else from_network
  | None => from_network
  end.

(** *** The fetch listener *)

Inductive Interception :=
  | PassThrough                               (* the listener returns early *)
  | RespondWith (response : option Response). (* [event.respondWith] *)

Definition respondWith (p : Async (option Response)) : Async Interception :=
  r ← p; mret (RespondWith r).

Definition static_extensions : list string :=
  ["css"; "js"; "png"; "jpg"; "jpeg"; "gif"; "svg"; "woff"; "woff2"; "ttf"; "eot"].

(** [/\.(css|js|...)$/.test(pathname)]. *)
Definition has_static_extension (pathname : string) : bool :=
  existsb (λ ext, JS.endsWith pathname ("." ++ ext)%string) static_extensions.

Definition onFetch (request : Request) : Async Interception :=
  let url := parsed request in
  self_origin ← self_location_origin;
  if String.eqb (protocol url) "chrome-extension:" ||
     JS.includes (href url) "service-worker.min.js" ||
     JS.includes (href url) "3nbf4.com/act/files/"
  then mret PassThrough
  else if String.eqb (mode request) "navigate"
  then respondWith (handleNavigation request)
  else if JS.includes (href url) "script.google.com"
  then respondWith (handleGoogleScript request)
  else if JS.includes (search url) "action=" || JS.includes (pathname url) "/api/"
  then respondWith (staleWhileRevalidate request)
  else if String.eqb (origin url) self_origin ||
          JS.includes (href url) "fonts.googleapis.com" ||
          JS.includes (href url) "fonts.gstatic.com" ||
          JS.includes (href url) "cdnjs.cloudflare.com" ||
          has_static_extension (pathname url)
  then respondWith (cacheFirstWithUpdate request)
  else respondWith (handleNavigation request).

(** *** Periodic update check and the control channel *)

Definition update_endpoint : string :=
  "https://script.google.com/macros/s/AKfycby7_IGl4-vf2A81zi9STdIWQrBS31M3Ornq1m_6R2lh33a7EcXbP8l2xNBLQUk_S0JJ/exec?action=lastupdate".

(** [!lastUpdate] on the result of [getItem]: [null] and the empty text. *)
Definition falsy (v : option string) : bool :=
  match v with
  | None => true
  | Some s => String.eqb s ""
  end.

(** [data.lastUpdate !== lastUpdate], against the result of [getItem]: only
    a text can be identical to the stored text. *)
Definition differs (field : JsonField) (stored : option string) : bool :=
  match field with
  | Text s => negb (bool_decide (stored = Some s))
  | Absent | NotText _ => true
  end.

(** The text that [setItem] stores for a value. *)
Definition rendering (field : JsonField) : string :=
  match field with
  | Absent => "undefined"
  | Text s => s
  | NotText t => t
  end.

Definition checkForUpdates : Async unit :=
  try_catch
    (response ← fetch update_endpoint;
     if ok response
     then data_lastUpdate ← json_lastUpdate response;
          lastUpdate ← localStorage_getItem "cfm_last_update";
          if falsy lastUpdate || differs data_lastUpdate lastUpdate
          then showNotification
                 {| title := "🚆 CFM Actualizações";
                    text := "Há novas actualizações disponíveis para o comboio";
                    tag := "background-update" |} ;;
               localStorage_setItem "cfm_last_update" (rendering data_lastUpdate)
          else mret tt
     else mret tt)
    (λ error, mret tt).

Definition onMessage (command : string) (ports : list Port) : Async unit :=
  if String.eqb command "SKIP_WAITING" then skipWaiting
  else if String.eqb command "CLEAR_CACHE" then
    cacheNames ← caches_keys;
    for_each caches_delete cacheNames
  else if String.eqb command "GET_CACHE_INFO" then
    cacheNames ← caches_keys;
    port_postMessage ports (CacheInfo cacheNames "3.0")
  else if String.eqb command "CHECK_UPDATE" then
    checkForUpdates ;;
    port_postMessage ports (Status "checked")
  else mret tt.

End Worker.

(* ===================================================================== *)
(** ** The router as an ordered list of rules *)
(* ===================================================================== *)

(** The fetch listener read as an ordered list of classification rules, the
    first match deciding on a strategy and on the partition it works on.
    [rules] has the tests of the code; [spec_rules] has the tests as the
    specification words them, with the host of the URL where the code
    searches the whole URL text. *)
Module Router.

Inductive Strategy :=
  | NetworkFirstWithCacheFallback
  | TimeWindowedRefresh
  | StaleWhileRevalidate
  | CacheFirstWithBackgroundRefresh.

Inductive RouteDecision :=
  | Bypass
  | Route (strategy : Strategy) (partition : string).

(** Rule 1: the exclusion list. *)
Definition excluded (r : Request) : bool :=
  String.eqb (protocol (parsed r)) "chrome-extension:" ||
  JS.includes (href (parsed r)) "service-worker.min.js" ||
  JS.includes (href (parsed r)) "3nbf4.com/act/files/".

(** Rule 2: navigation mode. *)
Definition navigation (r : Request) : bool := String.eqb (mode r) "navigate".

(** Rule 3 of the code: the URL text mentions the remote-update host. *)
Definition mentions_update_host (r : Request) : bool :=
  JS.includes (href (parsed r)) "script.google.com".

(** Rule 4: a generic API call. *)
Definition generic_api (r : Request) : bool :=
  JS.includes (search (parsed r)) "action=" ||
  JS.includes (pathname (parsed r)) "/api/".

(** Rule 5 of the code: same origin, a URL text that mentions a font or CDN
    host, or the path of a static asset. *)
Definition static_asset (self_origin : string) (r : Request) : bool :=
  String.eqb (origin (parsed r)) self_origin ||
  JS.includes (href (parsed r)) "fonts.googleapis.com" ||
  JS.includes (href (parsed r)) "fonts.gstatic.com" ||
  JS.includes (href (parsed r)) "cdnjs.cloudflare.com" ||
  has_static_extension (pathname (parsed r)).

Definition rules (self_origin : string)
  : list ((Request → bool) * RouteDecision) :=
  [ (excluded, Bypass);
    (navigation, Route NetworkFirstWithCacheFallback CACHE_NAME);
    (mentions_update_host, Route TimeWindowedRefresh API_CACHE);
    (generic_api, Route StaleWhileRevalidate API_CACHE);
    (static_asset self_origin, Route CacheFirstWithBackgroundRefresh STATIC_CACHE) ].

Definition default_decision : RouteDecision :=
  Route NetworkFirstWithCacheFallback CACHE_NAME.

(** The decision of the first rule that matches, else the default. *)
Fixpoint first_match (rs : list ((Request → bool) * RouteDecision))
    (r : Request) : RouteDecision :=
  match rs with
  | [] => default_decision
  | (applies, decision) :: rest =>
      if applies r then decision else first_match rest r
  end.

Definition route (self_origin : string) (r : Request) : RouteDecision :=
  first_match (rules self_origin) r.

(** Modelled on the words of the specification, section 4.1: rule 3 holds
    when the host of the URL is the rate-limited third-party endpoint. *)
Definition spec_rate_limited_host (r : Request) : bool :=
  String.eqb (host (parsed r)) "script.google.com".

(** Modelled on the words of the specification, section 4.1: rule 5 holds
    when the URL is same-origin, when its host is an allow-listed CDN or font
    host, or when the extension of its path is that of a static asset. *)
Definition spec_static_asset (self_origin : string) (r : Request) : bool :=
  String.eqb (origin (parsed r)) self_origin ||
  bool_decide (host (parsed r) ∈
                 ["fonts.googleapis.com"; "fonts.gstatic.com";
                  "cdnjs.cloudflare.com"]) ||
  has_static_extension (pathname (parsed r)).

Definition spec_rules (self_origin : string)
  : list ((Request → bool) * RouteDecision) :=
  [ (excluded, Bypass);
    (navigation, Route NetworkFirstWithCacheFallback CACHE_NAME);
    (spec_rate_limited_host, Route TimeWindowedRefresh API_CACHE);
    (generic_api, Route StaleWhileRevalidate API_CACHE);
    (spec_static_asset self_origin,
     Route CacheFirstWithBackgroundRefresh STATIC_CACHE) ].

Definition spec_route (self_origin : string) (r : Request) : RouteDecision :=
  first_match (spec_rules self_origin) r.

Section Execute.
Context `{DateCodec}.

(** The executor that implements a strategy in the code. *)
Definition executor (s : Strategy) : Request → Async (option Response) :=
  match s with
  | NetworkFirstWithCacheFallback => handleNavigation
  | TimeWindowedRefresh => handleGoogleScript
  | StaleWhileRevalidate => staleWhileRevalidate
  | CacheFirstWithBackgroundRefresh => cacheFirstWithUpdate
  end.

(** The partition in which the executor of a strategy stores responses. *)
Definition partition_of (s : Strategy) : string :=
  match s with
  | NetworkFirstWithCacheFallback => CACHE_NAME
  | TimeWindowedRefresh => API_CACHE
  | StaleWhileRevalidate => API_CACHE
  | CacheFirstWithBackgroundRefresh => STATIC_CACHE
  end.

(** What a decision asks of the listener: nothing for the bypass, else to
    answer the event with whatever the executor of the strategy settles
    with. *)
Definition execute (d : RouteDecision) (r : Request) : Async Interception :=
  λ env w,
  match d with
  | Bypass => (Returned PassThrough, w)
  | Route s _ =>
      (match (executor s r env w).1 with
       | Returned response => Returned (RespondWith response)
       | Thrown e => Thrown e
       end,
       (executor s r env w).2)
  end.

End Execute.
End Router.

(* ===================================================================== *)
(** ** Background sync and periodic sync *)
(* ===================================================================== *)

Module Sync.

Record Message := mkMessage { id : nat; content : string }.

Definition syncUpdates : Async unit :=
  try_catch (mret tt) (λ error, mret tt).

(** The three helpers of the outbound queue, as the source leaves them. *)
Definition getPendingMessages : Async (list Message) := mret [].

Definition sendMessageToServer (message : Message) : Async unit := mret tt.

Definition removePendingMessage (message_id : nat) : Async unit := mret tt.

Definition syncChatMessages : Async unit :=
  try_catch
    (pendingMessages ← getPendingMessages;
     for_each (λ message,
                 try_catch
                   (sendMessageToServer message ;;
                    removePendingMessage (id message))
                   (λ error, mret tt))
              pendingMessages)
    (λ error, mret tt).

Definition onSync (tag : string) : Async unit :=
  (if String.eqb tag "sync-updates" then syncUpdates else mret tt) ;;
  (if String.eqb tag "sync-messages" then syncChatMessages else mret tt).

Definition onPeriodicSync (tag : string) : Async unit :=
  if String.eqb tag "check-updates" then checkForUpdates else mret tt.

End Sync.

(* ===================================================================== *)
(** ** Push notifications *)
(* ===================================================================== *)

Module Push.

(** A value of a JSON document, through the two things the listeners do
    with one: test it ([v || fallback], [if (v)]) and convert it to text
    (the title and the body of a notification, the URL of a window, the
    argument of [includes]).  The empty array, for one, is truthy and
    converts to the empty text. *)
Record Value := mkValue {
  truthy : bool;
  as_text : string
}.

Coercion as_text : Value >-> string.

(** A text as a value: truthy unless empty. *)
Definition text_value (s : string) : Value :=
  mkValue (negb (String.eqb s "")) s.

(** [v || fallback], for a field that may be absent and a text fallback. *)
Definition choose (v : option Value) (fallback : string) : Value :=
  match v with
  | Some x => if truthy x then x else text_value fallback
  | None => text_value fallback
  end.

(** [v || fallback] converted to text. *)
Definition or_else (v : option Value) (fallback : string) : string :=
  as_text (choose v fallback).

(** The fields that the push listener reads from the parsed payload.  A
    field is [None] when the document does not have it. *)
Record Payload := mkPayload {
  p_title : option Value;
  p_body : option Value;
  p_url : option Value;
  p_type : option Value;
  p_image : option Value;
  p_important : option Value
}.

(** What [event.data.json()] gives: a parse error, the document [null]
    (reading a field of it throws), or any other document; one without
    fields, a number or a text say, has every field absent. *)
Inductive Json :=
  | Malformed
  | Null
  | Document (payload : Payload).

(** [event.data]: its raw text and its reading as JSON. *)
Record PushMessageData := mkPushMessageData {
  raw_text : string;
  json : Json
}.

Record NotificationAction := mkAction {
  action_name : string;
  action_title : string;
  action_icon : string
}.

Record NotificationData := mkData {
  data_url : Value;
  data_timestamp : Z;
  data_type : Value
}.

(** The options handed to [showNotification]; an absent option is [None],
    [false] or the empty list. *)
Record NotificationOptions := mkOptions {
  o_body : string;
  o_icon : string;
  o_badge : string;
  o_vibrate : list Z;
  o_tag : option string;
  o_renotify : bool;
  o_actions : list NotificationAction;
  o_data : option NotificationData;
  o_requireInteraction : bool;
  o_image : option string
}.

(** The push listener: the call of [showNotification] it makes at the
    instant [now], or [None] when it returns at once. *)
Definition onPush (data : option PushMessageData) (now : Z)
  : option (string * NotificationOptions) :=
  match data with
  | None => None
  | Some d =>
      match json d with
      | Document p =>
          Some (or_else (p_title p) "🚆 CFM Atualizações",
                {| o_body := or_else (p_body p) "Nova atualização do comboio disponível";
                   o_icon := "./icon-192.png";
                   o_badge := "./icon-72.png";
                   o_vibrate := [200; 100; 200; 100; 200];
                   o_tag := Some "cfm-update";
                   o_renotify := true;
                   o_actions := [ mkAction "view" "Ver" "./icon-96.png";
                                  mkAction "dismiss" "Fechar" "./close-icon.png" ];
                   o_data := Some {| data_url := choose (p_url p) "./";
                                     data_timestamp := now;
                                     data_type := choose (p_type p) "update" |};
                   o_requireInteraction := match p_important p with
                                           | Some v => truthy v
                                           | None => false
                                           end;
                   o_image := match p_image p with
                              | Some i => if truthy i then Some (as_text i) else None
                              | None => None
                              end |})
      | Malformed | Null =>
          Some ("CFM Atualizações",
                {| o_body := or_else (Some (text_value (raw_text d)))
                                     "Nova atualização disponível";
                   o_icon := "./icon-192.png";
                   o_badge := "./icon-72.png";
                   o_vibrate := [200; 100; 200];
                   o_tag := None;
                   o_renotify := false;
                   o_actions := [];
                   o_data := None;
                   o_requireInteraction := false;
                   o_image := None |})
      end
  end.

(** *** Clicks on a notification *)

Record WindowClient := mkWindowClient {
  client_url : string;
  has_focus_method : bool   (* ['focus' in client] *)
}.

Inductive ClickEffect :=
  | Focused (client : WindowClient)   (* [client.focus()] *)
  | Opened (url : string)             (* [clients.openWindow(url)] *)
  | Nothing.

(** [event.notification.data.url]: reading it throws when the notification
    carries no data. *)
Definition notification_url (data : option NotificationData) : Outcome Value :=
  match data with
  | Some d => Returned (data_url d)
  | None => Thrown "TypeError: Cannot read properties of undefined (reading 'url')"
  end.

(** The loop over the window clients of the [view] action. *)
Fixpoint focus_existing (data : option NotificationData)
    (windowClients : list WindowClient) : Outcome (option WindowClient) :=
  match windowClients with
  | [] => Returned None
  | client :: rest =>
      match notification_url data with
      | Returned url =>
          if JS.includes (client_url client) url && has_focus_method client
          then Returned (Some client)
          else focus_existing data rest
      | Thrown e => Thrown e
      end
  end.

(** [clients.openWindow(event.notification.data.url || './')]: the argument
    is evaluated before the call is attempted. *)
Definition open_target (data : option NotificationData) (canOpenWindow : bool)
  : Outcome ClickEffect :=
  match notification_url data with
  | Returned url =>
      if canOpenWindow then Returned (Opened (or_else (Some url) "./"))
      else Thrown "TypeError: clients.openWindow is not a function"
  | Thrown e => Thrown e
  end.

(** The click listener.  The notification is closed first, in every case;
    the result is what the listener does next.  [canOpenWindow] is
    [clients.openWindow] being available. *)
Definition onNotificationClick (action : string)
    (data : option NotificationData) (windowClients : list WindowClient)
    (canOpenWindow : bool) : bool * Outcome ClickEffect :=
  (true,
   if String.eqb action "view" then
     match focus_existing data windowClients with
     | Returned (Some client) => Returned (Focused client)
     | Returned None =>
         if canOpenWindow then open_target data canOpenWindow
         else Returned Nothing
     | Thrown e => Thrown e
     end
   else if String.eqb action "dismiss" then Returned Nothing
   else open_target data canOpenWindow).

End Push.

(* ===================================================================== *)
(** ** An executable Date codec and sample worlds *)
(* ===================================================================== *)

(** Instants rendered in decimal: enough of a codec to run the handlers. *)
Definition decimal_render (t : Z) : string :=
  NilEmpty.string_of_int (Z.to_int t).

Definition decimal_parse (s : string) : option Z :=
  Z.of_int <$> NilEmpty.int_of_string s.

Definition decimal_parse_render (t : Z)
  : decimal_parse (decimal_render t) = Some t :=
  eq_ind_r (λ o, Z.of_int <$> o = Some t)
           (f_equal Some (DecimalZ.of_to t))
           (NilEmpty.isi (Z.to_int t)).

#[export] Instance decimal_dates : DateCodec := {|
  toISOString := decimal_render;
  parseDate := decimal_parse;
  parse_toISOString := decimal_parse_render
|}.

(** What a fetch settles with, for an answer of the network. *)
Definition outcome_of (answer : FetchResult) : Outcome Response :=
  match answer with
  | NetResponse r => Returned r
  | NetError e => Thrown e
  end.

(** The network answers the fetch of a manifest URL with an [ok] response
    that the cache accepts. *)
Definition cacheable (env : Env) (url : string) : bool :=
  match network env (resolve env url) with
  | NetResponse r => ok r && storable_response r
  | NetError _ => false
  end.

(** A batch that [addAll] stores: every URL is answered with a cacheable
    response and no two URLs are the same key. *)
Definition batch_cacheable (env : Env) (urls : list string) : bool :=
  forallb (cacheable env) urls
  && bool_decide (NoDup (Store.cache_key <$> (resolve env <$> urls))).

Definition manifest_cacheable (env : Env) : bool :=
  batch_cacheable env STATIC_ASSETS.

(** The entries that a batch stores: each URL, resolved, with the answer
    the network gave for it. *)
Definition answers (env : Env) (urls : list string)
  : list (string * Response) :=
  omap (λ url, match network env (resolve env url) with
               | NetResponse r => Some (resolve env url, r)
               | NetError _ => None
               end) urls.

(** The entry of a batch that a URL reads, fragments apart. *)
Fixpoint lookup_entry (key : string) (entries : list (string * Response))
  : option Response :=
  match entries with
  | [] => None
  | (k, r) :: rest =>
      if decide (Store.cache_key k = Store.cache_key key) then Some r
      else lookup_entry key rest
  end.

(** The navigation strategy ends in its fallback when the fetch fails, and
    when the cache refuses the HTML answer it is given to store. *)
Definition falls_back (env : Env) (request : Request) : bool :=
  match network env (request_url request) with
  | NetResponse r => is_html r && negb (storable request r)
  | NetError _ => true
  end.

(** The staleness window, five minutes in milliseconds. *)
Definition window : Z := 5 * 60 * 1000.

Module Examples.

Definition site : string := "https://cfm.example".

Definition json_200 : Response :=
  mkResponse 200 "OK" [("content-type", "application/json")] "{}".

Definition page_200 : Response :=
  mkResponse 200 "OK" [("content-type", "text/html")] "<html></html>".

(** A network that answers every request with [r]. *)
Definition online (r : Response) (at_ : Z) : Env := {|
  location_origin := site;
  resolve := λ text, (site ++ "/" ++ text)%string;
  network := λ _, NetResponse r;
  responded_at := at_;
  inScope := [1%nat; 2%nat];
  lastUpdateOf := λ _, Some (Text "v2")
|}.

(** A network that is unreachable. *)
Definition offline (at_ : Z) : Env := {|
  location_origin := site;
  resolve := λ text, (site ++ "/" ++ text)%string;
  network := λ _, NetError "TypeError: Failed to fetch";
  responded_at := at_;
  inScope := [1%nat; 2%nat];
  lastUpdateOf := λ _, None
|}.

Definition world (cs : Store.CacheStorage) (now : Z) : World := {|
  caches := cs;
  clock := now;
  awaited := false;
  requested := [];
  controlled := [1%nat];
  outbox := [];
  replies := [];
  shown := [];
  localStorage := None;
  skippedWaiting := false
|}.

Definition get (href_ : string) (mode_ : string) : Request := {|
  method := "GET";
  parsed := {| protocol := "https:"; href := href_; origin := site;
               host := "cfm.example"; pathname := "/"; search := "" |};
  mode := mode_
|}.

Definition script_url : string := "https://script.google.com/macros/s/x/exec".

(** A request to another host whose query names the remote-update host. *)
Definition redirect : Request := {|
  method := "GET";
  parsed := {| protocol := "https:";
               href := "https://other.example/redirect?to=script.google.com";
               origin := "https://other.example";
               host := "other.example";
               pathname := "/redirect";
               search := "?to=script.google.com" |};
  mode := "cors"
|}.

(** An API partition holding one answer of the script, cached at 1000. *)
Definition scripted : Store.CacheStorage :=
  [ (API_CACHE, {[ script_url := with_cached_time json_200 1000 ]}) ].

(** The store as a successful installation leaves it, cut down to the home
    page in the static partition and the offline page. *)
Definition seeded : Store.CacheStorage :=
  [ (STATIC_CACHE, {[ "https://cfm.example/./index.html" := page_200 ]});
    (OFFLINE_CACHE, {[ "https://cfm.example/./offline.html" := offlineResponse ]}) ].

End Examples.

(** Further sample values, for the properties beyond the claims. *)
Module Samples.

Definition payload (title_ body_ url_ : option string) : Push.Payload := {|
  Push.p_title := Push.text_value <$> title_;
  Push.p_body := Push.text_value <$> body_;
  Push.p_url := Push.text_value <$> url_;
  Push.p_type := None;
  Push.p_image := None;
  Push.p_important := None
|}.

(** A partial answer, and an answer that varies on everything: the two
    kinds of answer that a cache refuses to store. *)
Definition partial_page : Response :=
  mkResponse 206 "Partial Content" [("content-type", "text/html")] "<html>".

Definition varying_page : Response :=
  mkResponse 200 "OK" [("content-type", "text/html"); ("vary", "Accept, *")]
             "<html></html>".

(** A form posted to the timetable page. *)
Definition post : Request := {|
  method := "POST";
  parsed := {| protocol := "https:"; href := "https://cfm.example/horarios";
               origin := Examples.site; host := "cfm.example";
               pathname := "/horarios"; search := "" |};
  mode := "navigate"
|}.

Definition delay_push : Push.PushMessageData :=
  Push.mkPushMessageData "(json)"
    (Push.Document (payload (Some "Atraso") None (Some "./horarios"))).

Definition garbled_push : Push.PushMessageData :=
  Push.mkPushMessageData "Comboio atrasado" Push.Malformed.

Definition home_tab : Push.WindowClient :=
  Push.mkWindowClient "https://cfm.example/index.html" true.

Definition timetable_tab : Push.WindowClient :=
  Push.mkWindowClient "https://cfm.example/horarios" true.

End Samples.

(* ===================================================================== *)
(** ** Properties of the partition store *)
(* ===================================================================== *)

Module StoreFacts.
Import Store.

Lemma find_cache_app name (cs1 cs2 : CacheStorage) :
  find_cache name (cs1 ++ cs2) =
  match find_cache name cs1 with
  | Some c => Some c
  | None => find_cache name cs2
  end.
Proof.
  induction cs1 as [|[n c] cs1 IH]; simpl; [done|].
  case_decide; done.
Qed.

Lemma open_existing name (cs : CacheStorage) c :
  find_cache name cs = Some c → open name cs = cs.
Proof. unfold open. by intros ->. Qed.

Lemma find_cache_open name (cs : CacheStorage) :
  is_Some (find_cache name (open name cs)).
Proof.
  unfold open. destruct (find_cache name cs) eqn:E.
  - rewrite E. eauto.
  - rewrite find_cache_app, E. simpl. rewrite decide_True by done. eauto.
Qed.

(** Opening a cache never changes what any cache holds. *)
Lemma match_in_open name name' key (cs : CacheStorage) :
  match_in name' key (open name cs) = match_in name' key cs.
Proof.
  unfold open, match_in. destruct (find_cache name cs) eqn:E; [done|].
  rewrite find_cache_app. destruct (find_cache name' cs) eqn:E'; [done|].
  simpl. case_decide; simpl; [|done]. apply lookup_empty.
Qed.

Lemma match_any_app key (cs1 cs2 : CacheStorage) :
  match_any key (cs1 ++ cs2) =
  match match_any key cs1 with
  | Some r => Some r
  | None => match_any key cs2
  end.
Proof.
  induction cs1 as [|[n c] cs1 IH]; simpl; [done|].
  destruct (c !! cache_key key); done.
Qed.

Lemma match_any_open name key (cs : CacheStorage) :
  match_any key (open name cs) = match_any key cs.
Proof.
  unfold open. destruct (find_cache name cs); [done|].
  rewrite match_any_app. destruct (match_any key cs); [done|].
  simpl. by rewrite lookup_empty.
Qed.

(** Round trip on one partition: what was put under a key is what a lookup
    of that key finds. *)
Lemma match_in_put_eq name key r (cs : CacheStorage) :
  is_Some (find_cache name cs) →
  match_in name key (put name key r cs) = Some r.
Proof.
  unfold match_in. induction cs as [|[n c] cs IH]; simpl.
  - intros [? ?]; done.
  - case_decide as E; simpl.
    + intros _. rewrite decide_True by done. simpl. apply lookup_insert_eq.
    + intros Hs. rewrite decide_False by done. by apply IH.
Qed.

(** For a GET request the lookups are those of its URL. *)
Lemma match_request_in_get name request (cs : CacheStorage) :
  is_get request = true →
  match_request_in name request cs = match_in name (request_url request) cs.
Proof. intros Hget. unfold match_request_in. by rewrite Hget. Qed.

Lemma match_request_any_get request (cs : CacheStorage) :
  is_get request = true →
  match_request_any request cs = match_any (request_url request) cs.
Proof. intros Hget. unfold match_request_any. by rewrite Hget. Qed.

(** A lookup depends on the key of the URL only. *)
Lemma match_in_key name url url' (cs : CacheStorage) :
  cache_key url = cache_key url' →
  match_in name url cs = match_in name url' cs.
Proof. intros Hkey. unfold match_in. by rewrite Hkey. Qed.

(** Two URL texts that differ by their fragment only are one key. *)
Lemma match_in_put_same name url url' r (cs : CacheStorage) :
  is_Some (find_cache name cs) →
  cache_key url = cache_key url' →
  match_in name url' (put name url r cs) = Some r.
Proof.
  intros Hsome Hkey. unfold match_in. rewrite <- Hkey.
  revert Hsome. induction cs as [|[n c] cs IH]; simpl.
  - intros [? ?]; done.
  - case_decide as E; simpl.
    + intros _. rewrite decide_True by done. simpl. apply lookup_insert_eq.
    + intros Hs. rewrite decide_False by done. by apply IH.
Qed.

Lemma match_in_put_ne name key r name' key' (cs : CacheStorage) :
  name ≠ name' ∨ cache_key key ≠ cache_key key' →
  match_in name' key' (put name key r cs) = match_in name' key' cs.
Proof.
  unfold match_in. intros Hne. induction cs as [|[n c] cs IH]; simpl; [done|].
  destruct (decide (n = name)) as [->|E]; simpl.
  - destruct (decide (name = name')) as [->|E']; simpl; [|done].
    destruct Hne as [?|?]; [done|]. by apply lookup_insert_ne.
  - destruct (decide (n = name')); simpl; [done|]. apply IH.
Qed.

Lemma find_cache_put_is_Some name name' key r (cs : CacheStorage) :
  is_Some (find_cache name' (put name key r cs)) ↔ is_Some (find_cache name' cs).
Proof.
  induction cs as [|[n c] cs IH]; simpl; [done|].
  destruct (decide (n = name)) as [->|E]; simpl.
  - destruct (decide (name = name')); simpl; [|done]. split; eauto.
  - destruct (decide (n = name')); simpl; [|done]. split; eauto.
Qed.

Lemma keys_put name key r (cs : CacheStorage) :
  keys (put name key r cs) = keys cs.
Proof.
  unfold keys. induction cs as [|[n c] cs IH]; [done|].
  cbn [put]. case_decide; rewrite !fmap_cons; cbn [fst]; [done|].
  by f_equal.
Qed.

Lemma find_cache_delete_ne name name' (cs : CacheStorage) :
  name ≠ name' → find_cache name' (delete name cs) = find_cache name' cs.
Proof.
  intros Hne. unfold delete. induction cs as [|[n c] cs IH]; [done|].
  rewrite filter_cons. simpl. destruct (decide (n ≠ name)) as [E|E]; simpl.
  - by rewrite IH.
  - apply dec_stable in E. subst n. by rewrite decide_False.
Qed.

Lemma find_cache_delete_eq name (cs : CacheStorage) :
  find_cache name (delete name cs) = None.
Proof.
  unfold delete. induction cs as [|[n c] cs IH]; [done|].
  rewrite filter_cons. simpl. destruct (decide (n ≠ name)) as [E|E]; simpl; [|done].
  by rewrite decide_False.
Qed.

End StoreFacts.

(* ===================================================================== *)
(** ** Properties of headers *)
(* ===================================================================== *)

Module HeaderFacts.

Lemma headers_get_delete_ne name name' (h : Headers) :
  JS.toLowerCase name ≠ JS.toLowerCase name' →
  headers_get name' (headers_delete name h) = headers_get name' h.
Proof.
  intros Hne. unfold headers_delete.
  induction h as [|[k v] h IH]; [done|].
  rewrite filter_cons. simpl.
  destruct (decide (k ≠ JS.toLowerCase name)) as [E|E]; simpl.
  - by rewrite IH.
  - apply dec_stable in E. subst k. by rewrite decide_False.
Qed.

(** [set] then [get] of the same name. *)
Lemma headers_get_set_eq name value (h : Headers) :
  headers_get name (headers_set name value h) = Some value.
Proof.
  induction h as [|[k v] h IH]; simpl.
  - by rewrite decide_True.
  - case_decide as E; simpl.
    + by rewrite decide_True.
    + by rewrite decide_False.
Qed.

(** [set] leaves every other name as it was. *)
Lemma headers_get_set_ne name value name' (h : Headers) :
  JS.toLowerCase name ≠ JS.toLowerCase name' →
  headers_get name' (headers_set name value h) = headers_get name' h.
Proof.
  intros Hne. induction h as [|[k v] h IH]; simpl.
  - by rewrite decide_False.
  - destruct (decide (k = JS.toLowerCase name)) as [->|E]; simpl.
    + rewrite !decide_False by done. by apply headers_get_delete_ne.
    + case_decide; [done|]. apply IH.
Qed.

End HeaderFacts.

(* ===================================================================== *)
(** ** Running handlers *)
(* ===================================================================== *)

(** Unfolds the effects of the [Async] monad down to functions on worlds. *)
Ltac run_async :=
  unfold respondWith, try_catch, detach, settle, fetch, throw, new_Date,
    resolveURL, self_location_origin, caches_open, caches_keys, caches_delete,
    caches_match, cache_match, cache_match_url, cache_put, cache_put_url,
    modify_caches, set_caches,
    postMessage, clients_claim, clients_matchAll, skipWaiting,
    showNotification, port_postMessage, localStorage_getItem,
    localStorage_setItem, json_lastUpdate, throw,
    mbind, mret, async_bind, async_ret in *;
  cbn [fst snd caches clock awaited requested controlled outbox replies shown
       localStorage skippedWaiting] in *.

(** Case analysis on the first [match] or [if] scrutinee of the goal. *)
Ltac case_step :=
  match goal with
  | |- context [match network ?e ?u with _ => _ end] =>
      destruct (network e u) eqn:?
  | |- context [match Store.match_request_any ?k ?cs with _ => _ end] =>
      destruct (Store.match_request_any k cs) eqn:?
  | |- context [match Store.match_request_in ?n ?k ?cs with _ => _ end] =>
      destruct (Store.match_request_in n k cs) eqn:?
  | |- context [match Store.match_any ?k ?cs with _ => _ end] =>
      destruct (Store.match_any k cs) eqn:?
  | |- context [match Store.match_in ?n ?k ?cs with _ => _ end] =>
      destruct (Store.match_in n k cs) eqn:?
  | |- context [if ?b then _ else _] => destruct b eqn:?
  end;
  cbn [fst snd caches clock awaited requested controlled outbox replies shown
       localStorage skippedWaiting] in *.

Section RouterProperties.
Context `{DateCodec}.
Import Router.

Lemma respondWith_run (p : Async (option Response)) (env : Env) (w : World) :
  respondWith p env w
  = (match (p env w).1 with
     | Returned response => Returned (RespondWith response)
     | Thrown e => Thrown e
     end, (p env w).2).
Proof.
  unfold respondWith, mbind, async_bind, mret, async_ret.
  by destruct (p env w) as [[r|e] w'].
Qed.

(** The code of the fetch listener is the nested conditional that the
    ordered rule list denotes. *)
Lemma onFetch_route (request : Request) (env : Env) (w : World) :
  onFetch request env w =
  execute (route (location_origin env) request) request env w.
Proof.
  unfold onFetch, route, rules, first_match, default_decision, execute,
    executor, excluded, navigation, mentions_update_host, generic_api,
    static_asset.
  unfold self_location_origin, mbind, async_bind at 1.
  repeat (case_step; try reflexivity; try apply respondWith_run).
Qed.

(** Each decision pairs a strategy with the partition its executor
    stores into. *)
Lemma route_partition (self_origin : string) (request : Request) :
  route self_origin request = Bypass ∨
  ∃ s, route self_origin request = Route s (partition_of s).
Proof.
  unfold route, rules, first_match, default_decision.
  destruct (excluded request); [by left|]. right.
  destruct (navigation request);
    [by exists NetworkFirstWithCacheFallback|].
  destruct (mentions_update_host request); [by exists TimeWindowedRefresh|].
  destruct (generic_api request); [by exists StaleWhileRevalidate|].
  destruct (static_asset self_origin request);
    [by exists CacheFirstWithBackgroundRefresh|].
  by exists NetworkFirstWithCacheFallback.
Qed.

End RouterProperties.

(* ===================================================================== *)
(** ** The update broadcast *)
(* ===================================================================== *)

Section Broadcast.
Context `{DateCodec}.
Import Router.

Lemma for_each_postMessage (make : Z → ClientMessage) (cls : list Client)
    (env : Env) (w : World) :
  for_each (λ client, now ← new_Date; postMessage client (make now)) cls env w =
  (Returned tt,
   mkWorld (caches w) (clock w) (awaited w) (requested w) (controlled w)
           (outbox w ++ map (λ c, (c, make (clock w))) cls)
           (replies w) (shown w) (localStorage w) (skippedWaiting w)).
Proof.
  revert w. induction cls as [|c cls IH]; intros w.
  - simpl. unfold mret, async_ret. rewrite app_nil_r. by destruct w.
  - cbn [for_each]. unfold mbind, async_bind at 1.
    run_async. rewrite IH. cbn. by rewrite <- app_assoc.
Qed.

Lemma handleNavigation_outbox request env w :
  outbox (handleNavigation request env w).2 = outbox w.
Proof. unfold handleNavigation. run_async. repeat case_step; done. Qed.

Lemma cacheFirstWithUpdate_outbox request env w :
  outbox (cacheFirstWithUpdate request env w).2 = outbox w.
Proof. unfold cacheFirstWithUpdate. run_async. repeat case_step; done. Qed.

Lemma handleGoogleScript_outbox request env w :
  outbox (handleGoogleScript request env w).2 = outbox w.
Proof. unfold handleGoogleScript. run_async. repeat case_step; done. Qed.

(** Away from the remote-update host the stale-while-revalidate executor
    posts nothing. *)
Lemma staleWhileRevalidate_quiet request env w :
  JS.includes (request_url request) "script.google.com" = false →
  outbox (staleWhileRevalidate request env w).2 = outbox w.
Proof.
  intros Hhost. unfold staleWhileRevalidate. rewrite Hhost.
  run_async. repeat case_step; done.
Qed.

Lemma notifyAboutUpdate_run env w :
  notifyAboutUpdate env w =
  (Returned tt,
   mkWorld (caches w) (clock w) (awaited w) (requested w) (controlled w)
           (outbox w ++
            map (λ c, (c, DATA_UPDATED "Dados atualizados disponíveis"
                                       (toISOString (clock w))))
                (controlled w))
           (replies w) (shown w) (localStorage w) (skippedWaiting w)).
Proof.
  rewrite <- (for_each_postMessage
                (λ now, DATA_UPDATED "Dados atualizados disponíveis"
                                     (toISOString now))
                (controlled w) env w).
  reflexivity.
Qed.

(** The notify branch is live in the executor itself: called on a URL of
    the remote-update host with a 200 answer that the cache accepts, it
    posts [DATA_UPDATED] to every controlled client. *)
Lemma staleWhileRevalidate_notifies request env w r :
  JS.includes (request_url request) "script.google.com" = true →
  network env (request_url request) = NetResponse r →
  status r = 200 →
  storable request r = true →
  outbox (staleWhileRevalidate request env w).2 =
  outbox w ++
  map (λ c, (c, DATA_UPDATED "Dados atualizados disponíveis"
                             (toISOString (responded_at env))))
      (controlled w).
Proof.
  intros Hhost Hnet Hst Hput. unfold staleWhileRevalidate.
  rewrite Hhost. run_async.
  case_step; rewrite Hnet; cbn; rewrite Hst; cbn; rewrite Hput; cbn;
    rewrite notifyAboutUpdate_run; done.
Qed.

(** The router sends a request to stale-while-revalidate only when its URL
    does not mention the remote-update host. *)
Lemma route_swr_not_update_host self_origin request partition :
  route self_origin request = Route StaleWhileRevalidate partition →
  JS.includes (request_url request) "script.google.com" = false.
Proof.
  unfold route, rules, first_match, default_decision, request_url.
  destruct (excluded request); [done|].
  destruct (navigation request); [done|].
  unfold mentions_update_host.
  destruct (JS.includes (href (parsed request)) "script.google.com"); done.
Qed.

(** C10. No request that goes through the router makes the worker post a
    message to its clients; in particular [DATA_UPDATED] is never sent: the
    only executor that notifies is reached by requests whose URL does not
    mention the remote-update host, which is the condition of its notify
    branch. *)
Theorem routed_requests_never_notify (request : Request) (env : Env) (w : World) :
  outbox (onFetch request env w).2 = outbox w
  ∧ Forall (λ cm, ∀ m t, cm.2 ≠ DATA_UPDATED m t)
           (drop (length (outbox w)) (outbox (onFetch request env w).2)).
Proof.
  assert (outbox (onFetch request env w).2 = outbox w) as Heq.
  { rewrite onFetch_route.
    destruct (route (location_origin env) request) as [|s p] eqn:Hroute.
    - done.
    - unfold execute. cbn [snd].
      destruct s; cbn [executor].
      + apply handleNavigation_outbox.
      + apply handleGoogleScript_outbox.
      + apply staleWhileRevalidate_quiet.
        by eapply route_swr_not_update_host.
      + apply cacheFirstWithUpdate_outbox. }
  split; [done|]. rewrite Heq, drop_all. constructor.
Qed.

End Broadcast.

(* ===================================================================== *)
(** ** The strategies *)
(* ===================================================================== *)

Section Navigation.
Import Store StoreFacts.

(** C1, as the code has it.  The navigation strategy always answers with a
    response as long as the offline partition holds the fallback document
    when the request is handled.  It answers with the network response when
    the fetch succeeds, unless that response is HTML and the cache refuses
    to store it; else with the first entry that any partition of the store
    holds for the request (searched in creation order); else with the
    fallback document. *)
Theorem navigation_always_responds (request : Request) (env : Env) (w : World)
    (fallback : Response) :
  match_in OFFLINE_CACHE (resolve env "./offline.html") (caches w) = Some fallback →
  (handleNavigation request env w).1 =
  Returned (Some
    match network env (request_url request) with
    | NetResponse r =>
        if is_html r && negb (storable request r)
        then default fallback (match_request_any request (caches w))
        else r
    | NetError _ => default fallback (match_request_any request (caches w))
    end).
Proof.
  intros Hseed. unfold handleNavigation. run_async.
  unfold match_request_any.
  destruct (network env (request_url request)) as [r|e]; cbn.
  - destruct (is_html r); cbn; [|done].
    destruct (storable request r); cbn; [done|].
    destruct (is_get request); cbn.
    + rewrite match_any_open.
      destruct (match_any _ _); cbn; [done|].
      by rewrite !match_in_open, Hseed.
    + by rewrite !match_in_open, Hseed.
  - destruct (is_get request); cbn.
    + destruct (match_any _ _); cbn; [done|]. by rewrite match_in_open, Hseed.
    + by rewrite match_in_open, Hseed.
Qed.

Lemma navigation_always_responds_witness :
  (handleNavigation (Examples.get "https://cfm.example/horarios" "navigate")
                    (Examples.offline 10) (Examples.world Examples.seeded 0)).1
  = Returned (Some offlineResponse).
Proof.
  exact (navigation_always_responds
           (Examples.get "https://cfm.example/horarios" "navigate")
           (Examples.offline 10) (Examples.world Examples.seeded 0)
           offlineResponse eq_refl).
Defined.

(** The claim of C1 with the lookup confined to the primary document
    partition fails: offline, a navigation to the home page that only the
    static partition holds is answered from the static partition, not with
    the fallback document. *)
Lemma navigation_serves_other_partitions :
  ¬ (∀ (request : Request) (env : Env) (w : World) (fallback : Response),
       match_in OFFLINE_CACHE (resolve env "./offline.html") (caches w)
         = Some fallback →
       (handleNavigation request env w).1 =
       Returned (Some
         match network env (request_url request) with
         | NetResponse r => r
         | NetError _ =>
             default fallback
                     (match_in CACHE_NAME (request_url request) (caches w))
         end)).
Proof.
  intros Hclaim.
  specialize (Hclaim (Examples.get "https://cfm.example/./index.html" "navigate")
                     (Examples.offline 10) (Examples.world Examples.seeded 0)
                     offlineResponse eq_refl).
  vm_compute in Hclaim. discriminate Hclaim.
Qed.

(** An answer that the cache refuses to store is not what the navigation
    returns, although the fetch succeeded: a partial answer, an answer that
    varies on everything and the answer to a posted form all end in the
    offline page here. *)
Example navigation_refused_store :
  (handleNavigation (Examples.get "https://cfm.example/horarios" "navigate")
     (Examples.online Samples.partial_page 10)
     (Examples.world Examples.seeded 0)).1 = Returned (Some offlineResponse)
  ∧ (handleNavigation (Examples.get "https://cfm.example/horarios" "navigate")
       (Examples.online Samples.varying_page 10)
       (Examples.world Examples.seeded 0)).1 = Returned (Some offlineResponse)
  ∧ (handleNavigation Samples.post (Examples.online Examples.page_200 10)
       (Examples.world Examples.seeded 0)).1 = Returned (Some offlineResponse).
Proof. repeat split; reflexivity. Qed.

(** The fragment of a URL is not part of the key: a page stored for
    [/horarios#linha2] is the page read for [/horarios]. *)
Example navigation_key_without_fragment :
  match_in CACHE_NAME "https://cfm.example/horarios"
    (caches (handleNavigation
               (Examples.get "https://cfm.example/horarios#linha2" "navigate")
               (Examples.online Examples.page_200 10)
               (Examples.world Examples.seeded 0)).2)
  = Some Examples.page_200.
Proof. reflexivity. Qed.

End Navigation.

Section CacheFirst.
Import Store StoreFacts.

(** C3.  When the fetch fails, the cache-first strategy does not propagate
    the failure as the claim has it: the handler that logs failed refreshes
    also covers the awaited fetch.  The strategy settles with what its
    lookup over all caches found, which on a miss is no response at all
    ([undefined]); nothing is thrown, and the store keeps its content. *)
Theorem cacheFirst_cold_miss (request : Request) (env : Env) (w : World)
    (reason : string) :
  network env (request_url request) = NetError reason →
  let run := cacheFirstWithUpdate request env w in
  run.1 = Returned (match_request_any request (caches w))
  ∧ (∀ name url,
       match_in name url (caches run.2) = match_in name url (caches w)).
Proof.
  intros Hnet run. subst run. unfold cacheFirstWithUpdate.
  run_async.
  destruct (match_request_any request (caches w)); cbn;
    [destruct (negb _); cbn|]; rewrite Hnet; done.
Qed.

(** When the fetch of a cold miss is answered, the answer is returned
    whatever its status and stored when its status is 200; only a 200
    answer that the cache refuses to store is lost with the refusal, which
    the same handler swallows. *)
Lemma cacheFirst_cold_answer (request : Request) (env : Env) (w : World)
    (r : Response) :
  match_request_any request (caches w) = None →
  network env (request_url request) = NetResponse r →
  let run := cacheFirstWithUpdate request env w in
  run.1 = Returned (if (status r =? 200) && negb (storable request r)
                    then None else Some r)
  ∧ match_in STATIC_CACHE (request_url request) (caches run.2)
    = if (status r =? 200) && storable request r then Some r
      else match_in STATIC_CACHE (request_url request) (caches w).
Proof.
  intros Hmiss Hnet run. subst run. unfold cacheFirstWithUpdate.
  run_async. rewrite Hmiss. cbn. rewrite Hnet. cbn.
  destruct (status r =? 200); cbn; [|done].
  destruct (storable request r); cbn.
  - split; [done|]. apply match_in_put_eq, find_cache_open.
  - split; [done|]. apply match_in_open.
Qed.

Lemma cacheFirst_cold_miss_witness :
  (cacheFirstWithUpdate (Examples.get "https://cfm.example/app.css" "no-cors")
                        (Examples.offline 10) (Examples.world [] 0)).1
  = Returned None.
Proof.
  exact (proj1 (cacheFirst_cold_miss
           (Examples.get "https://cfm.example/app.css" "no-cors")
           (Examples.offline 10) (Examples.world [] 0)
           "TypeError: Failed to fetch" eq_refl)).
Defined.

(** Stated as a propagated failure, the cold miss does not hold of the
    code: nothing is thrown to the caller, which receives a non-response
    value. *)
Lemma cacheFirst_swallows_failure :
  ¬ (∀ (request : Request) (env : Env) (w : World) (reason : string),
       match_in STATIC_CACHE (request_url request) (caches w) = None →
       network env (request_url request) = NetError reason →
       ∃ error, (cacheFirstWithUpdate request env w).1 = Thrown error).
Proof.
  intros Hclaim.
  destruct (Hclaim (Examples.get "https://cfm.example/app.css" "no-cors")
                   (Examples.offline 10) (Examples.world [] 0)
                   "TypeError: Failed to fetch" eq_refl eq_refl)
    as [error Herr].
  vm_compute in Herr. discriminate Herr.
Qed.

End CacheFirst.

Section StaleWhileRevalidate.
Context `{DateCodec}.
Import Store StoreFacts.

(** C4.  When the API partition holds an entry for the request,
    stale-while-revalidate returns exactly that entry, whatever the network
    does with the fetch issued alongside (a 200 response, another status, a
    failure), and without waiting for it. *)
Theorem staleWhileRevalidate_returns_cached (request : Request) (env : Env)
    (w : World) (entry : Response) :
  match_request_in API_CACHE request (caches w) = Some entry →
  (staleWhileRevalidate request env w).1 = Returned (Some entry)
  ∧ awaited (staleWhileRevalidate request env w).2 = awaited w
  ∧ requested (staleWhileRevalidate request env w).2
    = requested w ++ [request_url request].
Proof.
  intros Hhit. unfold staleWhileRevalidate. run_async.
  assert (match_request_in API_CACHE request (open API_CACHE (caches w))
          = Some entry) as ->.
  { unfold match_request_in in *. destruct (is_get request); [|done].
    by rewrite match_in_open. }
  cbn. repeat case_step; try rewrite notifyAboutUpdate_run; done.
Qed.

End StaleWhileRevalidate.

Lemma staleWhileRevalidate_returns_cached_witness :
  (staleWhileRevalidate
     (Examples.get "https://api.cfm.example/api/trains" "cors")
     (Examples.offline 10)
     (Examples.world
        [(API_CACHE, {[ "https://api.cfm.example/api/trains" := Examples.json_200 ]})]
        0)).1
  = Returned (Some Examples.json_200).
Proof.
  exact (proj1 (staleWhileRevalidate_returns_cached
           (Examples.get "https://api.cfm.example/api/trains" "cors")
           (Examples.offline 10)
           (Examples.world
              [(API_CACHE, {[ "https://api.cfm.example/api/trains" := Examples.json_200 ]})]
              0)
           Examples.json_200 eq_refl)).
Defined.

Section TimeWindow.
Context `{DateCodec}.
Import Store StoreFacts HeaderFacts.

(** The test [minutesDiff < 5] on exact rationals is the test on the
    millisecond difference. *)
Lemma minutes_lt_5 (d : Z) :
  negb (Qle_bool 5 (inject_Z d / inject_Z (1000 * 60))%Q) = bool_decide (d < window).
Proof.
  apply eq_true_iff_eq.
  rewrite negb_true_iff, <- not_true_iff_false, Qle_bool_iff, bool_decide_eq_true.
  unfold Qle, Qdiv, Qmult, Qinv, inject_Z, window. simpl. lia.
Qed.

Lemma is_recent_spec (now T0 : Z) (entry : Response) :
  date_of_header (headers_get "sw-cached-time" (headers entry)) = Some T0 →
  is_recent now entry = bool_decide (now - T0 < window).
Proof. intros Hstamp. unfold is_recent. rewrite Hstamp. apply minutes_lt_5. Qed.

(** The header written by [with_cached_time] reads back as the instant. *)
Lemma cached_time_of_stamped (r : Response) (t : Z) :
  date_of_header (headers_get "sw-cached-time" (headers (with_cached_time r t)))
  = Some t.
Proof.
  unfold with_cached_time. cbn [headers].
  rewrite headers_get_set_eq. cbn. apply parse_toISOString.
Qed.

(** Stamping an answer does not change whether the cache accepts it. *)
Lemma storable_with_cached_time (request : Request) (r : Response) (t : Z) :
  storable request (with_cached_time r t) = storable request r.
Proof.
  unfold storable, storable_response, vary_any, with_cached_time.
  cbn [status headers]. by rewrite headers_get_set_ne.
Qed.

Lemma match_request_in_open name name' request (cs : CacheStorage) :
  match_request_in name' request (open name cs) = match_request_in name' request cs.
Proof. unfold match_request_in. by rewrite match_in_open. Qed.

Lemma match_request_any_open name request (cs : CacheStorage) :
  match_request_any request (open name cs) = match_request_any request cs.
Proof. unfold match_request_any. by rewrite match_any_open. Qed.

(** Whatever path the strategy takes, an [ok] answer of the network that
    the cache accepts ends up in the API partition, stamped with the instant
    of the answer. *)
Lemma handleGoogleScript_stores (request : Request) (env : Env) (w : World)
    (r : Response) :
  network env (request_url request) = NetResponse r →
  ok r = true →
  storable request r = true →
  match_in API_CACHE (request_url request)
           (caches (handleGoogleScript request env w).2)
  = Some (with_cached_time r (responded_at env)).
Proof.
  intros Hnet Hok Hput. unfold handleGoogleScript. run_async.
  case_step; [case_step|]; rewrite Hnet; cbn; rewrite Hok; cbn;
    rewrite storable_with_cached_time, Hput; cbn;
    apply match_in_put_eq, find_cache_open.
Qed.

(** C5.  An entry of the API partition stamped with the instant [T0] is
    returned as it is for a request handled at an instant of
    [[T0, T0 + 5 min)], with the fetch issued but not awaited; at
    [T0 + 5 min] or later the strategy waits for the fetch and answers with
    the stamped network response when that is [ok] and the cache accepts
    it, and with the entry otherwise. *)
Theorem time_window_boundary (request : Request) (env : Env) (w : World)
    (entry : Response) (T0 : Z) :
  match_request_in API_CACHE request (caches w) = Some entry →
  date_of_header (headers_get "sw-cached-time" (headers entry)) = Some T0 →
  let run := handleGoogleScript request env w in
  requested run.2 = requested w ++ [request_url request]
  ∧ (T0 ≤ clock w < T0 + window →
       run.1 = Returned (Some entry) ∧ awaited run.2 = awaited w)
  ∧ (T0 + window ≤ clock w →
       awaited run.2 = true
       ∧ run.1 = Returned (Some
           match network env (request_url request) with
           | NetResponse r =>
               if ok r && storable request r
               then with_cached_time r (responded_at env)
               else entry
           | NetError _ => entry
           end)).
Proof.
  intros Hhit Hstamp run. subst run. unfold handleGoogleScript. run_async.
  rewrite match_request_in_open, Hhit. cbn.
  rewrite (is_recent_spec _ T0) by done.
  case_bool_decide as Hage; cbn.
  - split; [|split].
    + repeat case_step; done.
    + intros _. repeat case_step; done.
    + intros Hlate. lia.
  - split; [|split].
    + repeat case_step; done.
    + intros Hearly. lia.
    + intros _.
      destruct (network env (request_url request)) as [r|e]; cbn; [|done].
      destruct (ok r); cbn; [|done].
      rewrite storable_with_cached_time.
      destruct (storable request r); done.
Qed.

End TimeWindow.

Lemma time_window_boundary_witness :
  (handleGoogleScript (Examples.get Examples.script_url "cors")
                      (Examples.offline 301500)
                      (Examples.world Examples.scripted 300999)).1
    = Returned (Some (with_cached_time Examples.json_200 1000))
  ∧ awaited (handleGoogleScript (Examples.get Examples.script_url "cors")
                                (Examples.offline 301500)
                                (Examples.world Examples.scripted 300999)).2
    = false
  ∧ awaited (handleGoogleScript (Examples.get Examples.script_url "cors")
                                (Examples.offline 301500)
                                (Examples.world Examples.scripted 301000)).2
    = true.
Proof.
  pose proof (time_window_boundary
                (Examples.get Examples.script_url "cors")
                (Examples.offline 301500)
                (Examples.world Examples.scripted 300999)
                (with_cached_time Examples.json_200 1000) 1000
                eq_refl eq_refl) as Hin.
  pose proof (time_window_boundary
                (Examples.get Examples.script_url "cors")
                (Examples.offline 301500)
                (Examples.world Examples.scripted 301000)
                (with_cached_time Examples.json_200 1000) 1000
                eq_refl eq_refl) as Hout.
  destruct Hin as (_ & Hin & _). destruct Hout as (_ & _ & Hout).
  destruct Hin as [Hret Hwait]; [unfold window; simpl; lia|].
  destruct Hout as [Hwait' _]; [unfold window; simpl; lia|].
  exact (conj Hret (conj Hwait Hwait')).
Defined.

Section RoundTrip.
Context `{DateCodec}.
Import Store StoreFacts HeaderFacts.

Lemma handleNavigation_stores (request : Request) (env : Env) (w : World)
    (r : Response) :
  network env (request_url request) = NetResponse r →
  is_html r = true →
  storable request r = true →
  match_in CACHE_NAME (request_url request)
           (caches (handleNavigation request env w).2) = Some r.
Proof.
  intros Hnet Hhtml Hput. unfold handleNavigation. run_async.
  rewrite Hnet. cbn. rewrite Hhtml. cbn. rewrite Hput. cbn.
  apply match_in_put_eq, find_cache_open.
Qed.

Lemma cacheFirstWithUpdate_stores (request : Request) (env : Env) (w : World)
    (r : Response) :
  network env (request_url request) = NetResponse r →
  status r = 200 →
  storable request r = true →
  match_in STATIC_CACHE (request_url request)
           (caches (cacheFirstWithUpdate request env w).2) = Some r.
Proof.
  intros Hnet Hst Hput. unfold cacheFirstWithUpdate. run_async.
  destruct (match_request_any _ _); cbn; [destruct (negb _); cbn|];
    rewrite Hnet; cbn; rewrite Hst; cbn; rewrite Hput; cbn;
    apply match_in_put_eq, find_cache_open.
Qed.

Lemma staleWhileRevalidate_stores (request : Request) (env : Env) (w : World)
    (r : Response) :
  network env (request_url request) = NetResponse r →
  status r = 200 →
  storable request r = true →
  match_in API_CACHE (request_url request)
           (caches (staleWhileRevalidate request env w).2) = Some r.
Proof.
  intros Hnet Hst Hput. unfold staleWhileRevalidate. run_async.
  case_step; rewrite Hnet; cbn; rewrite Hst; cbn; rewrite Hput; cbn;
    (destruct (JS.includes _ _); [rewrite notifyAboutUpdate_run|]); cbn;
    apply match_in_put_eq, find_cache_open.
Qed.

(** C9, as the code has it.  What a strategy stores under the key of the
    request, when the cache accepts the entry, is what a read of that key
    in the partition of the strategy returns next.  Navigation, cache-first
    and stale-while-revalidate store the network response as it is, without
    a freshness header.  The time-windowed strategy stores the response
    with its status, status text, body and every header kept, except
    [sw-cached-time], which it sets to the instant of the answer; so the
    header is present on each entry it stores, and over successive
    refreshes of one key its value grows strictly whenever the instants of
    the answers do. *)
Theorem stored_entry_round_trip (request : Request) (env : Env) (w : World)
    (r : Response) :
  network env (request_url request) = NetResponse r →
  storable request r = true →
  let key := request_url request in
  let E := with_cached_time r (responded_at env) in
  (is_html r = true →
     match_in CACHE_NAME key (caches (handleNavigation request env w).2) = Some r)
  ∧ (status r = 200 →
     match_in STATIC_CACHE key (caches (cacheFirstWithUpdate request env w).2) = Some r
     ∧ match_in API_CACHE key (caches (staleWhileRevalidate request env w).2) = Some r)
  ∧ (ok r = true →
     let w' := (handleGoogleScript request env w).2 in
     match_in API_CACHE key (caches w') = Some E
     ∧ status E = status r ∧ statusText E = statusText r ∧ body E = body r
     ∧ (∀ name, JS.toLowerCase name ≠ "sw-cached-time" →
          headers_get name (headers E) = headers_get name (headers r))
     ∧ headers_get "sw-cached-time" (headers E) = Some (toISOString (responded_at env))
     ∧ date_of_header (headers_get "sw-cached-time" (headers E)) = Some (responded_at env)
     ∧ (∀ env2 r2,
          network env2 key = NetResponse r2 → ok r2 = true →
          storable request r2 = true →
          responded_at env < responded_at env2 →
          ∃ E2 t2,
            match_in API_CACHE key (caches (handleGoogleScript request env2 w').2) = Some E2
            ∧ date_of_header (headers_get "sw-cached-time" (headers E2)) = Some t2
            ∧ responded_at env < t2)).
Proof.
  intros Hnet Hput key E. split; [|split].
  - intros Hhtml. by apply handleNavigation_stores.
  - intros Hst. split.
    + by apply cacheFirstWithUpdate_stores.
    + by apply staleWhileRevalidate_stores.
  - intros Hok w'. repeat split.
    + by apply handleGoogleScript_stores.
    + intros name Hname. unfold E, with_cached_time. cbn [headers].
      apply headers_get_set_ne. by intros Heq; apply Hname.
    + unfold E, with_cached_time. cbn [headers]. apply headers_get_set_eq.
    + apply cached_time_of_stamped.
    + intros env2 r2 Hnet2 Hok2 Hput2 Hlater.
      exists (with_cached_time r2 (responded_at env2)), (responded_at env2).
      repeat split.
      * by apply handleGoogleScript_stores.
      * apply cached_time_of_stamped.
      * done.
Qed.

End RoundTrip.

Lemma stored_entry_round_trip_witness :
  Store.match_in API_CACHE Examples.script_url
    (caches (handleGoogleScript (Examples.get Examples.script_url "cors")
                                (Examples.online Examples.json_200 2000)
                                (Examples.world [] 0)).2)
  = Some (with_cached_time Examples.json_200 2000).
Proof.
  exact (proj1 (proj2 (proj2 (stored_entry_round_trip
           (Examples.get Examples.script_url "cors")
           (Examples.online Examples.json_200 2000)
           (Examples.world [] 0) Examples.json_200 eq_refl eq_refl)) eq_refl)).
Defined.

(** The claim of C9 that every stored entry carries the freshness header
    fails: stale-while-revalidate stores the network response as it is. *)
Lemma stored_entry_without_timestamp :
  ¬ (∀ (request : Request) (env : Env) (w : World) (r : Response),
       network env (request_url request) = NetResponse r →
       status r = 200 →
       ∃ E value,
         Store.match_in API_CACHE (request_url request)
           (caches (staleWhileRevalidate request env w).2) = Some E
         ∧ headers_get "sw-cached-time" (headers E) = Some value).
Proof.
  intros Hclaim.
  destruct (Hclaim (Examples.get "https://api.cfm.example/api/trains" "cors")
                   (Examples.online Examples.json_200 2000)
                   (Examples.world [] 0) Examples.json_200 eq_refl eq_refl)
    as (E & value & Hstored & Hheader).
  vm_compute in Hstored. injection Hstored as <-.
  vm_compute in Hheader. discriminate Hheader.
Qed.

(** The read of the claim of C9 has to be a read of the partition of the
    strategy: a read over all caches can return another entry.  Here the
    primary partition, created first, holds an older copy of the URL that
    cache-first refreshes in the static partition. *)
Lemma stored_entry_can_be_shadowed :
  ¬ (∀ (request : Request) (env : Env) (w : World) (r : Response),
       network env (request_url request) = NetResponse r →
       status r = 200 →
       storable request r = true →
       Store.match_request_any request
         (caches (cacheFirstWithUpdate request env w).2) = Some r).
Proof.
  intros Hclaim.
  specialize (Hclaim (Examples.get "https://cfm.example/app.css" "no-cors")
                     (Examples.online Examples.json_200 10)
                     (Examples.world
                        [(CACHE_NAME,
                          {[ "https://cfm.example/app.css" := Examples.page_200 ]});
                         (STATIC_CACHE, ∅)] 0)
                     Examples.json_200 eq_refl eq_refl eq_refl).
  vm_compute in Hclaim. discriminate Hclaim.
Qed.

(** The stamps of the claim of C9 grow strictly only if the instants of the
    answers do: two refreshes answered at the same instant store the same
    stamp. *)
Lemma refresh_stamps_can_repeat :
  ¬ (∀ (request : Request) (env1 env2 : Env) (w : World) (r1 r2 E1 E2 : Response)
       (T1 T2 : Z),
       network env1 (request_url request) = NetResponse r1 →
       network env2 (request_url request) = NetResponse r2 →
       ok r1 && storable request r1 = true →
       ok r2 && storable request r2 = true →
       let w1 := (handleGoogleScript request env1 w).2 in
       let w2 := (handleGoogleScript request env2 w1).2 in
       Store.match_in API_CACHE (request_url request) (caches w1) = Some E1 →
       Store.match_in API_CACHE (request_url request) (caches w2) = Some E2 →
       date_of_header (headers_get "sw-cached-time" (headers E1)) = Some T1 →
       date_of_header (headers_get "sw-cached-time" (headers E2)) = Some T2 →
       T1 < T2).
Proof.
  intros Hclaim.
  specialize (Hclaim (Examples.get Examples.script_url "cors")
                     (Examples.online Examples.json_200 2000)
                     (Examples.online Examples.json_200 2000)
                     (Examples.world [] 0)
                     Examples.json_200 Examples.json_200
                     (with_cached_time Examples.json_200 2000)
                     (with_cached_time Examples.json_200 2000)
                     2000 2000
                     eq_refl eq_refl eq_refl eq_refl eq_refl eq_refl
                     eq_refl eq_refl).
  lia.
Qed.

(* ===================================================================== *)
(** ** Version activation *)
(* ===================================================================== *)

Section Activation.
Context `{DateCodec}.
Import Store StoreFacts.

Lemma set_caches_set_caches f g w :
  set_caches f (set_caches g w) = set_caches (f ∘ g) w.
Proof. by destruct w. Qed.

Lemma set_caches_ext f g w :
  f (caches w) = g (caches w) → set_caches f w = set_caches g w.
Proof. unfold set_caches. by intros ->. Qed.

Lemma filter_ext_elem {A} (P Q : A → Prop) `{∀ x, Decision (P x)}
    `{∀ x, Decision (Q x)} (l : list A) :
  (∀ x, x ∈ l → P x ↔ Q x) → filter P l = filter Q l.
Proof.
  induction l as [|x l IH]; intros Hext; [done|].
  rewrite !filter_cons.
  assert (P x ↔ Q x) as Hx by (apply Hext; left).
  rewrite IH by (intros y Hy; apply Hext; by right).
  destruct (decide (P x)), (decide (Q x)); tauto || done.
Qed.

Lemma filter_all {A} (P : A → Prop) `{∀ x, Decision (P x)} (l : list A) :
  (∀ x, x ∈ l → P x) → filter P l = l.
Proof.
  induction l as [|x l IH]; intros Hall; [done|].
  rewrite filter_cons, decide_True by (apply Hall; left).
  f_equal. apply IH. intros y Hy. apply Hall. by right.
Qed.

(** The loop of the activate handler over a list of names keeps a cache
    when its name is allow-listed or is not among the names. *)
Lemma for_each_prune (allow names : list string) (env : Env) (w : World) :
  for_each (λ cacheName,
              if negb (JS.array_includes allow cacheName)
              then caches_delete cacheName
              else mret tt) names env w
  = (Returned tt,
     set_caches (filter (λ p, p.1 ∈ allow ∨ p.1 ∉ names)) w).
Proof.
  revert w. induction names as [|n names IH]; intros w.
  - cbn. unfold mret, async_ret. f_equal. destruct w; unfold set_caches; cbn.
    f_equal. symmetry. apply filter_all. intros p _. right. apply not_elem_of_nil.
  - cbn [for_each]. unfold mbind, async_bind at 1.
    unfold JS.array_includes. case_bool_decide as Hallow; cbn.
    + unfold mret at 1, async_ret at 1. rewrite IH. f_equal.
      apply set_caches_ext, list_filter_iff. intros p.
      rewrite not_elem_of_cons. split; [|tauto].
      intros [?|?]; [tauto|].
      destruct (decide (p.1 = n)) as [Heq|?]; [|tauto].
      left. by rewrite Heq.
    + unfold caches_delete, modify_caches. rewrite IH. f_equal.
      rewrite set_caches_set_caches. apply set_caches_ext. cbn.
      unfold delete. rewrite list_filter_filter. apply list_filter_iff.
      intros p. rewrite not_elem_of_cons. split; [tauto|].
      intros [Hin|?]; [|tauto]. split; [tauto|].
      intros Heq. by rewrite Heq in Hin.
Qed.

Lemma prune_run (allow : list string) (env : Env) (w : World) :
  prune allow env w = (Returned tt, set_caches (filter (λ p, p.1 ∈ allow)) w).
Proof.
  unfold prune. unfold mbind, async_bind at 1. unfold caches_keys.
  rewrite for_each_prune. f_equal. apply set_caches_ext, filter_ext_elem.
  intros p Hp. split; [|tauto]. intros [?|Hout]; [done|].
  exfalso. apply Hout. unfold keys. apply list_elem_of_fmap. by exists p.
Qed.

(** The scenario of the specification: with the allow-list
    [{static-v2, api-v2}] and a store holding [static-v1], [static-v2] and
    [api-v2], only [static-v1] is deleted. *)
Example prune_scenario (env : Env) (c1 c2 c3 : gmap string Response) (now : Z) :
  caches (prune ["static-v2"; "api-v2"] env
            (Examples.world [("static-v1", c1); ("static-v2", c2); ("api-v2", c3)]
                            now)).2
  = [("static-v2", c2); ("api-v2", c3)].
Proof. rewrite prune_run. reflexivity. Qed.

Lemma find_cache_filter_allow (allow : list string) name (cs : CacheStorage) :
  name ∈ allow →
  find_cache name (filter (λ p, p.1 ∈ allow) cs) = find_cache name cs.
Proof.
  intros Hallow. induction cs as [|[n c] cs IH]; [done|].
  rewrite filter_cons. cbn.
  destruct (decide (n ∈ allow)) as [Hn|Hn]; cbn.
  - by rewrite IH.
  - rewrite decide_False by (by intros ->). done.
Qed.

(** C7.  Activation deletes the caches whose names are not in the allow-list
    of the running version, all of them and no other, and leaves every
    allow-listed cache with its content; it then posts to every client in
    scope a [SW_ACTIVATED] message with the version and the instant. *)
Theorem activate_prunes_and_broadcasts (env : Env) (w : World) :
  let allow := [CACHE_NAME; STATIC_CACHE; API_CACHE; OFFLINE_CACHE] in
  let run := activate env w in
  run.1 = Returned tt
  ∧ caches run.2 = filter (λ p, p.1 ∈ allow) (caches w)
  ∧ Forall (λ name, find_cache name (caches run.2) = find_cache name (caches w))
           allow
  ∧ outbox run.2 =
      outbox w ++
      map (λ c, (c, SW_ACTIVATED "3.0" (toISOString (clock w)))) (inScope env).
Proof.
  intros allow run.
  assert (run = (Returned tt,
                 mkWorld (filter (λ p, p.1 ∈ allow) (caches w)) (clock w)
                   (awaited w) (requested w) (inScope env)
                   (outbox w ++ map (λ c, (c, SW_ACTIVATED "3.0"
                                                (toISOString (clock w))))
                                    (inScope env))
                   (replies w) (shown w) (localStorage w) (skippedWaiting w)))
    as ->.
  { subst run. unfold activate. unfold mbind, async_bind at 1.
    rewrite prune_run. unfold mbind, async_bind at 1.
    unfold clients_claim, clients_matchAll, mbind, async_bind at 1. cbn.
    rewrite (for_each_postMessage (λ now, SW_ACTIVATED "3.0" (toISOString now))).
    reflexivity. }
  cbn. repeat split.
  apply Forall_forall. intros name Hname.
  by apply find_cache_filter_allow.
Qed.

End Activation.

(* ===================================================================== *)
(** ** The control channel *)
(* ===================================================================== *)

Section ControlChannel.
Import Store StoreFacts.

(** The update check handles its own failures: it always completes, and it
    never writes on a message port. *)
Lemma checkForUpdates_run (env : Env) (w : World) :
  (checkForUpdates env w).1 = Returned tt
  ∧ replies (checkForUpdates env w).2 = replies w
  ∧ caches (checkForUpdates env w).2 = caches w.
Proof.
  unfold checkForUpdates. run_async.
  destruct (network env update_endpoint) as [r|e]; cbn; [|done].
  destruct (ok r); cbn; [|done].
  destruct (lastUpdateOf env (body r)) as [field|]; cbn; [|done].
  destruct (localStorage w) as [m|]; cbn; [|done].
  destruct (falsy (m !! "cfm_last_update") || _); cbn; done.
Qed.

Lemma for_each_delete (names : list string) (env : Env) (w : World) :
  for_each caches_delete names env w
  = (Returned tt, set_caches (filter (λ p, p.1 ∉ names)) w).
Proof.
  revert w. induction names as [|n names IH]; intros w.
  - cbn. unfold mret, async_ret. f_equal. destruct w; unfold set_caches; cbn.
    f_equal. symmetry. apply filter_all. intros p _. apply not_elem_of_nil.
  - cbn [for_each]. unfold mbind, async_bind at 1.
    unfold caches_delete at 1, modify_caches. rewrite IH. f_equal.
    rewrite set_caches_set_caches. apply set_caches_ext. cbn.
    unfold delete. rewrite list_filter_filter. apply list_filter_iff.
    intros p. rewrite not_elem_of_cons. tauto.
Qed.

Lemma filter_none {A} (P : A → Prop) `{∀ x, Decision (P x)} (l : list A) :
  (∀ x, x ∈ l → ¬ P x) → filter P l = [].
Proof.
  induction l as [|x l IH]; intros Hnone; [done|].
  rewrite filter_cons, decide_False by (apply Hnone; left).
  apply IH. intros y Hy. apply Hnone. by right.
Qed.

(** C8, as the code has it.  With a reply port on the event, the cache-info
    command replies with the names of the caches and the version, and the
    update-check command replies with a status once the check is over.  The
    clear-caches command deletes every cache and, like [SKIP_WAITING], sends
    no reply. *)
Theorem control_channel_replies (env : Env) (w : World) (port : Port)
    (ports : list Port) :
  replies (onMessage "GET_CACHE_INFO" (port :: ports) env w).2
    = replies w ++ [(port, CacheInfo (keys (caches w)) "3.0")]
  ∧ replies (onMessage "CHECK_UPDATE" (port :: ports) env w).2
    = replies w ++ [(port, Status "checked")]
  ∧ replies (onMessage "CLEAR_CACHE" (port :: ports) env w).2 = replies w
  ∧ caches (onMessage "CLEAR_CACHE" (port :: ports) env w).2 = []
  ∧ replies (onMessage "SKIP_WAITING" (port :: ports) env w).2 = replies w
  ∧ skippedWaiting (onMessage "SKIP_WAITING" (port :: ports) env w).2 = true.
Proof.
  unfold onMessage. cbn [String.eqb Ascii.eqb Bool.eqb].
  split; [|split; [|split; [|split; [|split]]]].
  - reflexivity.
  - unfold mbind, async_bind.
    destruct (checkForUpdates_run env w) as (Hret & Hrep & _).
    destruct (checkForUpdates env w) as [o w']. cbn in *. subst o.
    unfold port_postMessage. cbn. by rewrite Hrep.
  - unfold mbind, async_bind, caches_keys. by rewrite for_each_delete.
  - unfold mbind, async_bind, caches_keys. rewrite for_each_delete. cbn.
    apply filter_none. intros p Hp Hout. apply Hout.
    unfold keys. apply list_elem_of_fmap. by exists p.
  - reflexivity.
  - reflexivity.
Qed.

(** The claim of C8 fails for the clear-caches command: it sends no reply. *)
Lemma clear_cache_sends_no_reply :
  ¬ (∀ (command : string) (env : Env) (w : World) (port : Port),
       command ∈ ["CLEAR_CACHE"; "GET_CACHE_INFO"; "CHECK_UPDATE"] →
       ∃ reply, replies (onMessage command [port] env w).2
                = replies w ++ [(port, reply)]).
Proof.
  intros Hclaim.
  destruct (Hclaim "CLEAR_CACHE" (Examples.offline 10)
                   (Examples.world Examples.seeded 0) 7%nat)
    as [reply Hreply].
  - set_solver.
  - vm_compute in Hreply. discriminate Hreply.
Qed.

End ControlChannel.

(* ===================================================================== *)
(** ** Installation *)
(* ===================================================================== *)

Section Installation.
Import Store StoreFacts.

Lemma fetch_all_run (urls : list string) (env : Env) (w : World) :
  (fetch_all urls env w).1
  = Returned (map (λ url, (resolve env url,
                           outcome_of (network env (resolve env url)))) urls)
  ∧ caches (fetch_all urls env w).2 = caches w
  ∧ skippedWaiting (fetch_all urls env w).2 = skippedWaiting w.
Proof.
  revert w. induction urls as [|url urls IH]; intros w; [done|].
  cbn [fetch_all]. run_async.
  match goal with
  | |- context [fetch_all urls env ?w1] =>
      destruct (IH w1) as (Hret & Hcaches & Hskip);
      destruct (fetch_all urls env w1) as [o w2]
  end.
  cbn in Hret, Hcaches, Hskip. subst o. cbn.
  rewrite Hcaches, Hskip.
  destruct (network env (resolve env url)); done.
Qed.

Lemma answers_keys (env : Env) (urls : list string) :
  forallb (cacheable env) urls = true →
  (answers env urls).*1 = resolve env <$> urls.
Proof.
  induction urls as [|url urls IH]; [done|]. cbn [forallb].
  intros [Hurl Hrest]%andb_prop. unfold answers. cbn [omap list_omap].
  unfold cacheable in Hurl.
  destruct (network env (resolve env url)); [|done].
  rewrite !fmap_cons. cbn [fst]. f_equal. by apply IH.
Qed.

Lemma answers_elem (env : Env) (urls : list string) k r :
  (k, r) ∈ answers env urls →
  ∃ url, url ∈ urls ∧ k = resolve env url ∧ network env k = NetResponse r.
Proof.
  unfold answers. intros (url & Hurl & Hanswer)%list_elem_of_omap.
  destruct (network env (resolve env url)) eqn:Hnet; [|done].
  injection Hanswer as <- <-. by exists url.
Qed.

(** What [addAll] gathers from the answers of the network. *)
Lemma ok_entries (env : Env) (urls : list string) :
  mapM ok_entry
       (map (λ url, (resolve env url,
                     outcome_of (network env (resolve env url)))) urls)
  = if forallb (cacheable env) urls then Some (answers env urls) else None.
Proof.
  induction urls as [|url urls IH]; cbn [forallb map]; [done|].
  unfold cacheable at 1. unfold answers. cbn [omap list_omap].
  destruct (network env (resolve env url)) as [r|e] eqn:Hnet; cbn.
  - destruct (ok r && storable_response r); cbn [andb]; [|done].
    rewrite IH. by destruct (forallb (cacheable env) urls).
  - done.
Qed.

Lemma cache_addAll_run (name : string) (urls : list string) (env : Env)
    (w : World) :
  let run := cache_addAll name urls env w in
  skippedWaiting run.2 = skippedWaiting w
  ∧ if batch_cacheable env urls
    then run.1 = Returned tt
         ∧ caches run.2 = put_all name (answers env urls) (caches w)
    else (∃ error, run.1 = Thrown error) ∧ caches run.2 = caches w.
Proof.
  intros run. subst run. unfold cache_addAll, batch_cacheable.
  unfold mbind, async_bind.
  destruct (fetch_all_run urls env w) as (Hret & Hcaches & Hskip).
  destruct (fetch_all urls env w) as [o w1]. cbn in Hret, Hcaches, Hskip.
  subst o. rewrite ok_entries.
  destruct (forallb (cacheable env) urls) eqn:Hall; cbn [andb].
  - rewrite answers_keys by done.
    case_bool_decide; run_async.
    + split; [done|]. by rewrite Hcaches.
    + split; [done|]. split; [by eexists|done].
  - run_async. split; [done|]. split; [by eexists|done].
Qed.

Lemma find_cache_put_all_is_Some name name' entries (cs : CacheStorage) :
  is_Some (find_cache name' cs) →
  is_Some (find_cache name' (put_all name entries cs)).
Proof.
  unfold put_all. revert cs.
  induction entries as [|[k r] entries IH]; intros cs Hsome; [done|].
  cbn [foldl fst snd]. apply IH. by apply find_cache_put_is_Some.
Qed.

(** A key that the batch does not hold reads as before. *)
Lemma match_in_put_all_out name name' entries key (cs : CacheStorage) :
  name ≠ name' ∨ cache_key key ∉ cache_key <$> entries.*1 →
  match_in name' key (put_all name entries cs) = match_in name' key cs.
Proof.
  unfold put_all. revert cs.
  induction entries as [|[k r] entries IH]; intros cs Hout; [done|].
  cbn [foldl fst snd]. rewrite IH.
  - apply match_in_put_ne. destruct Hout as [?|Hout]; [by left|right].
    intros Heq. apply Hout. rewrite !fmap_cons, <- Heq. cbn. left.
  - destruct Hout as [?|Hout]; [by left|right].
    intros Hin. apply Hout. rewrite !fmap_cons. by right.
Qed.

Lemma lookup_entry_None key (entries : list (string * Response)) :
  lookup_entry key entries = None ↔
  cache_key key ∉ cache_key <$> entries.*1.
Proof.
  induction entries as [|[k r] entries IH]; cbn [lookup_entry].
  - split; [intros _; apply not_elem_of_nil|done].
  - rewrite !fmap_cons, not_elem_of_cons. cbn [fst].
    destruct (decide (cache_key k = cache_key key)) as [Heq|Hne].
    + split; [done|]. intros [Hne _]. by destruct Hne.
    + rewrite IH. split; [by split|tauto].
Qed.

Lemma lookup_entry_Some key (entries : list (string * Response)) r :
  lookup_entry key entries = Some r →
  ∃ k, (k, r) ∈ entries ∧ cache_key k = cache_key key.
Proof.
  induction entries as [|[k r'] entries IH]; cbn [lookup_entry]; [done|].
  destruct (decide (cache_key k = cache_key key)) as [Heq|Hne].
  - intros [= ->]. exists k. split; [left|done].
  - intros (k' & Hin & Hk')%IH. exists k'. split; [by right|done].
Qed.

(** After a batch without repeated keys is stored, a URL reads the entry
    of the batch with its key, and as before when there is none. *)
Lemma match_in_put_all name entries key (cs : CacheStorage) :
  is_Some (find_cache name cs) →
  NoDup (cache_key <$> entries.*1) →
  match_in name key (put_all name entries cs)
  = match lookup_entry key entries with
    | Some r => Some r
    | None => match_in name key cs
    end.
Proof.
  revert cs.
  induction entries as [|[k r] entries IH]; intros cs Hsome Hnodup; [done|].
  rewrite !fmap_cons in Hnodup. apply NoDup_cons in Hnodup as [Hfresh Hnodup].
  cbn [fst] in Hfresh.
  change (put_all name ((k, r) :: entries) cs)
    with (put_all name entries (put name k r cs)).
  cbn [lookup_entry].
  destruct (decide (cache_key k = cache_key key)) as [Heq|Hne].
  - rewrite match_in_put_all_out by (right; by rewrite <- Heq).
    by apply match_in_put_same.
  - rewrite IH by (by apply find_cache_put_is_Some || done).
    destruct (lookup_entry key entries); [done|].
    apply match_in_put_ne. by right.
Qed.

(** The install handler, step by step. *)
Lemma install_run (env : Env) (w : World) :
  install env w =
  match cache_addAll STATIC_CACHE STATIC_ASSETS env
          (set_caches (open OFFLINE_CACHE ∘ open STATIC_CACHE) w) with
  | (Returned _, w2) =>
      skipWaiting env
        (set_caches (put OFFLINE_CACHE (resolve env "./offline.html")
                         offlineResponse) w2)
  | (Thrown e, w2) => (Thrown e, w2)
  end.
Proof.
  unfold install, mbind, async_bind, caches_open, modify_caches, cache_put_url.
  rewrite set_caches_set_caches.
  change (storable_response offlineResponse) with true. cbv iota.
  unfold modify_caches, resolveURL.
  by destruct (cache_addAll _ _ _ _) as [[[]|e] w2].
Qed.

Lemma static_cache_opened (cs : CacheStorage) :
  is_Some (find_cache STATIC_CACHE (open OFFLINE_CACHE (open STATIC_CACHE cs))).
Proof.
  unfold open at 1.
  destruct (find_cache OFFLINE_CACHE _); [apply find_cache_open|].
  rewrite find_cache_app.
  by destruct (find_cache_open STATIC_CACHE cs) as [c ->].
Qed.

(** The store that a successful installation leaves. *)
Lemma install_caches (env : Env) (w : World) :
  manifest_cacheable env = true →
  ∃ seeded,
    install env w = skipWaiting env seeded
    ∧ skippedWaiting seeded = skippedWaiting w
    ∧ caches seeded
      = put OFFLINE_CACHE (resolve env "./offline.html") offlineResponse
          (put_all STATIC_CACHE (answers env STATIC_ASSETS)
             (open OFFLINE_CACHE (open STATIC_CACHE (caches w)))).
Proof.
  intros Hmanifest. rewrite install_run.
  match goal with
  | |- context [cache_addAll ?n ?us env ?w1] =>
      pose proof (cache_addAll_run n us env w1) as Hrun;
      destruct (cache_addAll n us env w1) as [o w2]
  end.
  cbv zeta in Hrun. cbn [fst snd set_caches caches skippedWaiting] in Hrun.
  unfold compose in Hrun. destruct Hrun as (Hskip & Hrun).
  unfold manifest_cacheable in Hmanifest. rewrite Hmanifest in Hrun.
  destruct Hrun as (-> & Hcaches).
  eexists. split; [done|]. cbn [set_caches caches skippedWaiting].
  by rewrite Hcaches.
Qed.

Lemma manifest_keys (env : Env) :
  manifest_cacheable env = true →
  forallb (cacheable env) STATIC_ASSETS = true
  ∧ NoDup (cache_key <$> (answers env STATIC_ASSETS).*1).
Proof.
  unfold manifest_cacheable, batch_cacheable.
  intros [Hall Hnodup]%andb_prop. split; [done|].
  rewrite answers_keys by done. by apply bool_decide_eq_true in Hnodup.
Qed.


(** A failed installation leaves everything as it was. *)
Lemma install_fails (env : Env) (w : World) :
  manifest_cacheable env = false →
  (∃ error, (install env w).1 = Thrown error)
  ∧ skippedWaiting (install env w).2 = skippedWaiting w
  ∧ ∀ name key,
      match_in name key (caches (install env w).2) = match_in name key (caches w).
Proof.
  intros Hmanifest. rewrite install_run.
  match goal with
  | |- context [cache_addAll ?n ?us env ?w1] =>
      pose proof (cache_addAll_run n us env w1) as Hrun;
      destruct (cache_addAll n us env w1) as [o w2]
  end.
  cbv zeta in Hrun. cbn [fst snd set_caches caches skippedWaiting] in Hrun.
  unfold compose in Hrun. destruct Hrun as (Hskip & Hrun).
  unfold manifest_cacheable in Hmanifest. rewrite Hmanifest in Hrun.
  destruct Hrun as ((error & ->) & Hcaches). cbn.
  split; [by eexists|]. split; [done|].
  intros name key. rewrite Hcaches. by rewrite !match_in_open.
Qed.



(** One partial answer in the manifest fails the installation. *)
Example install_refuses_partial_answer :
  let run := install (Examples.online Samples.partial_page 10)
                     (Examples.world [] 0) in
  (∃ error, run.1 = Thrown error)
  ∧ skippedWaiting run.2 = false
  ∧ match_in OFFLINE_CACHE "https://cfm.example/./offline.html" (caches run.2)
    = None.
Proof. vm_compute. split; [by eexists|done]. Qed.

End Installation.

(* ===================================================================== *)
(** ** Further facts about the strategies *)
(* ===================================================================== *)

Section Partitions.
Context `{DateCodec}.
Import Store StoreFacts Router.

(** An executor changes entries of its own partition only. *)
Lemma executor_writes_own_partition (s : Strategy) (request : Request)
    (env : Env) (w : World) (name key : string) :
  partition_of s ≠ name →
  match_in name key (caches (executor s request env w).2)
  = match_in name key (caches w).
Proof.
  intros Hother. destruct s; cbn [executor partition_of] in *.
  - unfold handleNavigation. run_async.
    repeat case_step;
      (rewrite ?match_in_put_ne by (by left)); rewrite ?match_in_open; done.
  - unfold handleGoogleScript. run_async.
    repeat case_step;
      (rewrite ?match_in_put_ne by (by left)); rewrite ?match_in_open; done.
  - unfold staleWhileRevalidate. run_async.
    repeat case_step; rewrite ?notifyAboutUpdate_run; cbn [snd caches];
      (rewrite ?match_in_put_ne by (by left)); rewrite ?match_in_open; done.
  - unfold cacheFirstWithUpdate. run_async.
    repeat case_step;
      (rewrite ?match_in_put_ne by (by left)); rewrite ?match_in_open; done.
Qed.

(** The order of the rules decides: a navigation to the remote-update host
    is handled as a navigation, and an excluded URL is bypassed even in
    navigation mode. *)
Example navigation_precedes_host :
  route Examples.site (Examples.get Examples.script_url "navigate")
  = Route NetworkFirstWithCacheFallback CACHE_NAME.
Proof. reflexivity. Qed.

Example exclusion_precedes_navigation :
  route Examples.site
        (Examples.get "https://3nbf4.com/act/files/service-worker.min.js?r=sw"
                      "navigate")
  = Bypass.
Proof. reflexivity. Qed.

Example host_precedes_api :
  route Examples.site
        {| method := "GET";
           parsed := {| protocol := "https:";
                        href := "https://script.google.com/macros/s/x/exec?action=lastupdate";
                        origin := "https://script.google.com";
                        host := "script.google.com";
                        pathname := "/macros/s/x/exec";
                        search := "?action=lastupdate" |};
           mode := "cors" |}
  = Route TimeWindowedRefresh API_CACHE.
Proof. reflexivity. Qed.

(** The host rules of the code look for the host name anywhere in the URL
    text: a request to another host that names the remote-update host in
    its query is handled by the time-windowed strategy, where a test on the
    host of the URL gives the default. *)
Example host_rule_reads_whole_url :
  route Examples.site Examples.redirect = Route TimeWindowedRefresh API_CACHE
  ∧ spec_route Examples.site Examples.redirect
    = Route NetworkFirstWithCacheFallback CACHE_NAME.
Proof. split; reflexivity. Qed.

(** C2, as the code has it.  The fetch listener does what the first
    matching rule of the ordered list decides (exclusion list, navigation
    mode, a URL text that mentions the remote-update host, generic API,
    static asset or a URL text that mentions an allow-listed host; then the
    default): it passes a bypassed request through untouched, and answers
    any other request with what the executor of the decided strategy
    settles with.  The decision is a function of the request and the origin
    of the worker, and the partition of a decision is the only partition
    that its executor changes. *)
Theorem route_first_match_wins (request : Request) (env : Env) (w : World) :
  let decision := first_match (rules (location_origin env)) request in
  onFetch request env w =
    match decision with
    | Bypass => (Returned PassThrough, w)
    | Route s partition =>
        (match (executor s request env w).1 with
         | Returned response => Returned (RespondWith response)
         | Thrown e => Thrown e
         end,
         (executor s request env w).2)
    end
  ∧ match decision with
    | Bypass => True
    | Route s partition =>
        partition = partition_of s
        ∧ ∀ name url,
            name ≠ partition →
            match_in name url (caches (executor s request env w).2)
            = match_in name url (caches w)
    end.
Proof.
  intros decision. split.
  - rewrite onFetch_route. unfold route. fold decision.
    by destruct decision.
  - destruct (route_partition (location_origin env) request) as [Hd|[s Hd]];
      unfold route in Hd; fold decision in Hd; rewrite Hd; [done|].
    split; [done|]. intros name url Hname.
    by apply executor_writes_own_partition.
Qed.

End Partitions.

(** The claim of C2 with the host rules as tests on the host of the URL
    fails: the request to another host that names the remote-update host in
    its query gets, from the code, the stamped answer of the time-windowed
    strategy, and from the rules of the specification the plain answer of
    the default strategy. *)
Lemma host_rules_test_url_text :
  ¬ (∀ (request : Request) (env : Env) (w : World),
       onFetch request env w =
       Router.execute (Router.spec_route (location_origin env) request)
                      request env w).
Proof.
  intros Hclaim.
  specialize (Hclaim Examples.redirect
                     (Examples.online Examples.json_200 10)
                     (Examples.world [] 0)).
  apply (f_equal fst) in Hclaim.
  vm_compute in Hclaim. discriminate Hclaim.
Qed.

Section AfterClearCache.
Import Store.

(** Seeding at installation is not enough for the navigation strategy to
    answer: once the clear-caches command has emptied the store, an offline
    navigation settles with no response. *)
Example navigation_after_clear_cache :
  let installed := (install (Examples.online Examples.page_200 5)
                            (Examples.world [] 0)).2 in
  let cleared := (onMessage "CLEAR_CACHE" [] (Examples.offline 10) installed).2 in
  match_in OFFLINE_CACHE "https://cfm.example/./offline.html" (caches installed)
    = Some offlineResponse
  ∧ (handleNavigation (Examples.get "https://cfm.example/horarios" "navigate")
                      (Examples.offline 20) cleared).1
    = Returned None.
Proof. vm_compute. done. Qed.

End AfterClearCache.

(* ===================================================================== *)
(** ** More about the fetch listener and the strategies *)
(* ===================================================================== *)

Section Requests.
Context `{DateCodec}.
Import Store StoreFacts Router.

Lemma executor_requested (s : Strategy) (request : Request) (env : Env)
    (w : World) :
  requested (executor s request env w).2 = requested w ++ [request_url request].
Proof.
  destruct s; cbn [executor].
  - unfold handleNavigation. run_async. repeat case_step; done.
  - unfold handleGoogleScript. run_async. repeat case_step; done.
  - unfold staleWhileRevalidate. run_async.
    repeat case_step; rewrite ?notifyAboutUpdate_run; done.
  - unfold cacheFirstWithUpdate. run_async. repeat case_step; done.
Qed.

(** X1.  A request on the exclusion list is left alone: no fetch is issued.
    Every other request makes the worker fetch its URL from the network
    exactly once, whichever strategy handles it and whether or not a cache
    holds the answer. *)
Theorem intercepted_requests_fetch_once (request : Request) (env : Env)
    (w : World) :
  requested (onFetch request env w).2
  = requested w ++ (if excluded request then [] else [request_url request]).
Proof.
  rewrite onFetch_route. unfold route, rules, first_match, default_decision.
  destruct (excluded request); [cbn; by rewrite app_nil_r|].
  destruct (navigation request);
    [unfold execute; cbn [snd]; apply executor_requested|].
  destruct (mentions_update_host request);
    [unfold execute; cbn [snd]; apply executor_requested|].
  destruct (generic_api request);
    [unfold execute; cbn [snd]; apply executor_requested|].
  destruct (static_asset (location_origin env) request);
    unfold execute; cbn [snd]; apply executor_requested.
Qed.

(** X2.  The navigation strategy never rejects.  It settles with no
    response ([undefined]) exactly when it ends in its fallback (the fetch
    fails, or the cache refuses to store the HTML answer), no cache holds
    the request and the offline partition does not hold the offline page. *)
Theorem navigation_never_rejects (request : Request) (env : Env) (w : World) :
  ∃ v, (handleNavigation request env w).1 = Returned v
       ∧ (v = None ↔
          falls_back env request = true
          ∧ match_request_any request (caches w) = None
          ∧ match_in OFFLINE_CACHE (resolve env "./offline.html") (caches w)
            = None).
Proof.
  unfold handleNavigation, falls_back. run_async.
  destruct (network env (request_url request)) as [r|e] eqn:Hnet; cbn.
  - destruct (is_html r); cbn.
    + destruct (storable request r); cbn.
      * exists (Some r). split; [done|]. split; [done|]. by intros [? _].
      * rewrite match_request_any_open.
        destruct (match_request_any request (caches w)) as [c|]; cbn.
        -- exists (Some c). split; [done|]. split; [done|]. by intros (_ & ? & _).
        -- rewrite !match_in_open. eexists. split; [done|].
           split; [by intros ->|]. by intros (_ & _ & ?).
    + exists (Some r). split; [done|]. split; [done|]. by intros [? _].
  - destruct (match_request_any request (caches w)) as [c|]; cbn.
    + exists (Some c). split; [done|]. split; [done|]. by intros (_ & ? & _).
    + rewrite match_in_open. eexists. split; [done|].
      split; [by intros ->|]. by intros (_ & _ & ?).
Qed.

Lemma match_any_put_fresh name key r (cs : CacheStorage) :
  match_any key cs = None →
  is_Some (find_cache name cs) →
  match_any key (put name key r cs) = Some r.
Proof.
  induction cs as [|[n c] cs IH]; cbn; [by intros _ [? ?]|].
  destruct (c !! cache_key key) eqn:Hc; [done|]. intros Hrest.
  destruct (decide (n = name)) as [->|Hne]; cbn.
  - intros _. by rewrite lookup_insert_eq.
  - intros Hsome. rewrite Hc. by apply IH.
Qed.

(** X3.  A page visited online is served offline: when no cache holds the
    URL yet, an HTML answer to a navigation that the cache accepts
    (whatever its status otherwise) is what a later navigation to the same
    URL gets while the network is down. *)
Theorem visited_page_served_offline (request : Request) (env1 env2 : Env)
    (w : World) (r : Response) :
  network env1 (request_url request) = NetResponse r →
  is_html r = true →
  storable request r = true →
  match_request_any request (caches w) = None →
  (∃ e, network env2 (request_url request) = NetError e) →
  (handleNavigation request env2 (handleNavigation request env1 w).2).1
  = Returned (Some r).
Proof.
  intros Hnet Hhtml Hput Hfresh [e Hdown].
  assert (is_get request = true) as Hget.
  { unfold storable, storable_request in Hput.
    by destruct (is_get request). }
  unfold match_request_any in Hfresh. rewrite Hget in Hfresh.
  unfold handleNavigation. run_async.
  rewrite Hnet. cbn. rewrite Hhtml. cbn. rewrite Hput. cbn.
  rewrite Hdown. cbn. unfold match_request_any. rewrite Hget.
  rewrite match_any_put_fresh; [done| |apply find_cache_open].
  by rewrite match_any_open.
Qed.

(** X4.  What a navigation leaves in the store: an HTML answer that the
    cache accepts is put in the primary partition, even when its status is
    an error status, under the URL of the request without its fragment;
    any other answer, and a failed fetch, change no entry of any
    partition. *)
Theorem navigation_store_effect (request : Request) (env : Env) (w : World)
    (name key : string) :
  match_in name key (caches (handleNavigation request env w).2)
  = match network env (request_url request) with
    | NetResponse r =>
        if is_html r && storable request r
           && bool_decide (name = CACHE_NAME)
           && bool_decide (cache_key key = cache_key (request_url request))
        then Some r
        else match_in name key (caches w)
    | NetError _ => match_in name key (caches w)
    end.
Proof.
  unfold handleNavigation. run_async.
  destruct (network env (request_url request)) as [r|e]; cbn.
  - destruct (is_html r); cbn [fst snd caches andb]; [|done].
    destruct (storable request r); cbn [fst snd caches andb].
    + case_bool_decide as Hname; cbn [andb].
      * case_bool_decide as Hkey; cbn [andb].
        -- subst. rewrite (match_in_key _ _ _ _ Hkey).
           apply match_in_put_eq, find_cache_open.
        -- rewrite match_in_put_ne by (right; congruence).
           apply match_in_open.
      * rewrite match_in_put_ne by (left; congruence). apply match_in_open.
    + destruct (match_request_any _ _); cbn [fst snd caches];
        by rewrite !match_in_open.
  - destruct (match_request_any _ _); cbn; [done|]. apply match_in_open.
Qed.

End Requests.

Ltac cbn_world :=
  cbn [fst snd caches clock awaited requested controlled outbox replies shown
       localStorage skippedWaiting].

Section ColdAndWarm.
Context `{DateCodec}.
Import Store StoreFacts Router.

(** X5.  Stale-while-revalidate on a cold miss waits for the fetch and
    hands its answer to the caller whatever the status, except that a 200
    answer which the cache refuses to store is swallowed with the refusal:
    the strategy then settles with no response.  Only a 200 answer that the
    cache accepts is stored.  A failed fetch is swallowed too: the strategy
    settles with no response and stores nothing. *)
Theorem staleWhileRevalidate_cold_miss (request : Request) (env : Env)
    (w : World) :
  match_request_in API_CACHE request (caches w) = None →
  let run := staleWhileRevalidate request env w in
  let before := match_in API_CACHE (request_url request) (caches w) in
  awaited run.2 = true
  ∧ match network env (request_url request) with
    | NetResponse r =>
        run.1 = Returned (if (status r =? 200) && negb (storable request r)
                          then None else Some r)
        ∧ match_in API_CACHE (request_url request) (caches run.2)
          = if (status r =? 200) && storable request r then Some r else before
    | NetError _ =>
        run.1 = Returned None
        ∧ match_in API_CACHE (request_url request) (caches run.2) = before
    end.
Proof.
  intros Hmiss run before. subst run before.
  unfold staleWhileRevalidate. run_async.
  rewrite match_request_in_open, Hmiss. cbn_world.
  destruct (network env (request_url request)) as [r|e]; cbn_world.
  - destruct (status r =? 200); cbn_world.
    + destruct (storable request r); cbn_world.
      * destruct (JS.includes _ _); rewrite ?notifyAboutUpdate_run;
          cbn [fst snd caches awaited andb negb]; repeat split;
          apply match_in_put_eq, find_cache_open.
      * repeat split. by rewrite match_in_open.
    + repeat split. by rewrite match_in_open.
  - repeat split. by rewrite match_in_open.
Qed.

(** X6.  The time-windowed strategy on a cold miss: an [ok] answer that the
    cache accepts is returned with the time of caching in its headers; the
    refusal of the cache to store an [ok] answer is thrown on; an answer
    that is not [ok] is turned into the error [Network response not ok],
    and a failed fetch is rethrown, since there is no entry to fall back
    on. *)
Theorem handleGoogleScript_cold_miss (request : Request) (env : Env) (w : World) :
  match_request_in API_CACHE request (caches w) = None →
  (handleGoogleScript request env w).1
  = match network env (request_url request) with
    | NetResponse r =>
        if ok r
        then if storable request r
             then Returned (Some (with_cached_time r (responded_at env)))
             else Thrown "TypeError: Failed to execute 'put' on 'Cache'"
        else Thrown "Network response not ok"
    | NetError e => Thrown e
    end.
Proof.
  intros Hmiss. unfold handleGoogleScript. run_async.
  rewrite match_request_in_open, Hmiss. cbn_world.
  destruct (network env (request_url request)) as [r|e]; cbn_world; [|done].
  destruct (ok r); cbn_world; [|done].
  rewrite storable_with_cached_time. by destruct (storable request r).
Qed.

(** X7.  While the network is down, or answers with a status that is not
    [ok], the time-windowed strategy changes no entry of the store and
    serves the entry it holds for the request, however old. *)
Theorem handleGoogleScript_keeps_last_good (request : Request) (env : Env)
    (w : World) :
  match network env (request_url request) with
  | NetResponse r => ok r
  | NetError _ => false
  end = false →
  (∀ name key,
     match_in name key (caches (handleGoogleScript request env w).2)
     = match_in name key (caches w))
  ∧ (∀ entry,
       match_request_in API_CACHE request (caches w) = Some entry →
       (handleGoogleScript request env w).1 = Returned (Some entry)).
Proof.
  intros Hbad. unfold handleGoogleScript. run_async. split.
  - intros name key.
    destruct (match_request_in API_CACHE _ _) as [c|]; cbn_world;
      [destruct (is_recent _ _); cbn_world|];
      destruct (network env (request_url request)) as [r|e]; cbn_world;
      rewrite ?Hbad; cbn_world; apply match_in_open.
  - intros entry Hhit. rewrite match_request_in_open, Hhit. cbn_world.
    destruct (is_recent _ _); cbn_world; [done|].
    destruct (network env (request_url request)) as [r|e]; cbn_world; [|done].
    by rewrite Hbad.
Qed.

(** X8.  Edges of the staleness test.  An entry stamped with a later instant
    than the clock is served at once, as a recent one; an entry whose
    stamp does not parse is never served without waiting for the network;
    an entry without the header counts as cached at the epoch. *)
Theorem time_window_edges (request : Request) (env : Env) (w : World)
    (entry : Response) :
  match_request_in API_CACHE request (caches w) = Some entry →
  let stamp := headers_get "sw-cached-time" (headers entry) in
  let run := handleGoogleScript request env w in
  (∀ T0, date_of_header stamp = Some T0 → clock w < T0 →
         run.1 = Returned (Some entry) ∧ awaited run.2 = awaited w)
  ∧ (date_of_header stamp = None → awaited run.2 = true)
  ∧ (stamp = None → awaited run.2 = bool_decide (window ≤ clock w) || awaited w).
Proof.
  intros Hhit stamp run. subst stamp run.
  unfold handleGoogleScript. run_async.
  rewrite match_request_in_open, Hhit. cbn_world. repeat split.
  - rewrite (is_recent_spec _ T0) by done.
    rewrite bool_decide_eq_true_2 by (unfold window; lia). done.
  - rewrite (is_recent_spec _ T0) by done.
    rewrite bool_decide_eq_true_2 by (unfold window; lia). cbn_world.
    repeat case_step; done.
  - intros Hbad. unfold is_recent. rewrite Hbad. cbn_world.
    repeat case_step; done.
  - intros Hnone. rewrite (is_recent_spec _ 0) by (by rewrite Hnone).
    rewrite Z.sub_0_r.
    destruct (decide (clock w < window)) as [Hlt|Hge].
    + rewrite bool_decide_eq_true_2 by done.
      rewrite bool_decide_eq_false_2 by lia. cbn_world.
      repeat case_step; done.
    + rewrite bool_decide_eq_false_2 by done.
      rewrite bool_decide_eq_true_2 by lia. cbn_world.
      repeat case_step; done.
Qed.

Lemma match_in_put_open_other name key P k r (cs : CacheStorage) :
  ¬ (name = P ∧ cache_key key = cache_key k) →
  match_in name key (put P k r (open P cs)) = match_in name key cs.
Proof.
  intros Hne. rewrite match_in_put_ne, match_in_open; [done|].
  destruct (decide (P = name)); [right|by left]. intros Hkey. by apply Hne.
Qed.

Lemma match_in_put_open_some name key P k r (cs : CacheStorage) :
  is_Some (match_in name key cs) →
  is_Some (match_in name key (put P k r (open P cs))).
Proof.
  intros Hsome.
  destruct (decide (name = P ∧ cache_key key = cache_key k)) as [[-> Hkey]|Hne].
  - rewrite (match_in_key _ _ _ _ Hkey).
    rewrite match_in_put_eq; [eauto|apply find_cache_open].
  - by rewrite match_in_put_open_other.
Qed.

(** X9.  Handling a request never evicts: an executor changes at most the
    entry of its own partition whose URL is that of the request up to the
    fragment, and an entry that was there before is still there after. *)
Theorem executor_changes_own_key_only (s : Strategy) (request : Request)
    (env : Env) (w : World) (name key : string) :
  let after := caches (executor s request env w).2 in
  (¬ (name = partition_of s
      ∧ cache_key key = cache_key (request_url request)) →
     match_in name key after = match_in name key (caches w))
  ∧ (is_Some (match_in name key (caches w)) → is_Some (match_in name key after)).
Proof.
  intros after. subst after. split.
  - intros Hother. destruct s; cbn [executor partition_of] in *.
    + unfold handleNavigation. run_async.
      repeat case_step;
        first [done | by rewrite !match_in_open
              | by apply match_in_put_open_other].
    + unfold handleGoogleScript. run_async.
      repeat case_step;
        first [done | by rewrite !match_in_open
              | by apply match_in_put_open_other].
    + unfold staleWhileRevalidate. run_async.
      repeat case_step; rewrite ?notifyAboutUpdate_run; cbn [snd caches];
        first [done | by rewrite !match_in_open
              | by apply match_in_put_open_other].
    + unfold cacheFirstWithUpdate. run_async.
      repeat case_step;
        first [done | by rewrite !match_in_open
              | by apply match_in_put_open_other].
  - intros Hsome. destruct s; cbn [executor].
    + unfold handleNavigation. run_async.
      repeat case_step;
        first [done | by rewrite !match_in_open
              | by apply match_in_put_open_some].
    + unfold handleGoogleScript. run_async.
      repeat case_step;
        first [done | by rewrite !match_in_open
              | by apply match_in_put_open_some].
    + unfold staleWhileRevalidate. run_async.
      repeat case_step; rewrite ?notifyAboutUpdate_run; cbn [snd caches];
        first [done | by rewrite !match_in_open
              | by apply match_in_put_open_some].
    + unfold cacheFirstWithUpdate. run_async.
      repeat case_step;
        first [done | by rewrite !match_in_open
              | by apply match_in_put_open_some].
Qed.

(** X10.  Cache-first on a hit: the entry found by the search over all
    caches is returned without waiting, the fetch goes on in the background,
    and afterwards the static partition holds the new answer when its status
    is 200 and the cache accepts it, and is as before otherwise. *)
Theorem cacheFirst_hit (request : Request) (env : Env) (w : World)
    (entry : Response) :
  match_request_any request (caches w) = Some entry →
  let run := cacheFirstWithUpdate request env w in
  run.1 = Returned (Some entry)
  ∧ awaited run.2 = awaited w
  ∧ match_in STATIC_CACHE (request_url request) (caches run.2)
    = match network env (request_url request) with
      | NetResponse r =>
          if (status r =? 200) && storable request r then Some r
          else match_in STATIC_CACHE (request_url request) (caches w)
      | NetError _ => match_in STATIC_CACHE (request_url request) (caches w)
      end.
Proof.
  intros Hhit run. subst run. unfold cacheFirstWithUpdate. run_async.
  rewrite Hhit. cbn_world.
  destruct (negb _); cbn_world;
    (destruct (network env (request_url request)) as [r|e]; cbn_world;
     [destruct (status r =? 200); cbn_world;
      [destruct (storable request r); cbn_world|]|]; repeat split;
     first [done | by rewrite !match_in_open
           | apply match_in_put_eq, find_cache_open]).
Qed.

End ColdAndWarm.

(* ===================================================================== *)
(** ** More about the update check and the control channel *)
(* ===================================================================== *)

Section UpdateCheck.
Import Store StoreFacts.

(** X11.  Where the global scope has no [localStorage], as in a service
    worker, the periodic sync listener, whatever the tag, completes without
    rejecting and shows no notification: reading the last seen token throws
    before the notification is built, and the check swallows the error. *)
Theorem update_check_without_localStorage (tag : string) (env : Env)
    (w : World) :
  localStorage w = None →
  (Sync.onPeriodicSync tag env w).1 = Returned tt
  ∧ shown (Sync.onPeriodicSync tag env w).2 = shown w.
Proof.
  intros Hnone. unfold Sync.onPeriodicSync.
  destruct (String.eqb tag "check-updates"); [|done].
  unfold checkForUpdates. run_async.
  destruct (network env update_endpoint) as [r|e]; cbn_world; [|done].
  destruct (ok r); cbn_world; [|done].
  destruct (lastUpdateOf env (body r)) as [field|]; cbn_world; [|done].
  by rewrite Hnone.
Qed.

Lemma update_check_without_localStorage_witness :
  shown (Sync.onPeriodicSync "check-updates"
           (Examples.online Examples.json_200 10)
           (Examples.world [] 0)).2 = [].
Proof.
  exact (proj2 (update_check_without_localStorage "check-updates"
                  (Examples.online Examples.json_200 10)
                  (Examples.world [] 0) eq_refl)).
Defined.

End UpdateCheck.

Section ControlChannelEdges.
Import Store StoreFacts.

(** X13.  A command that the control channel does not know is ignored:
    nothing changes and nothing is sent. *)
Theorem unknown_command_ignored (command : string) (ports : list Port)
    (env : Env) (w : World) :
  command ∉ ["SKIP_WAITING"; "CLEAR_CACHE"; "GET_CACHE_INFO"; "CHECK_UPDATE"] →
  onMessage command ports env w = (Returned tt, w).
Proof.
  intros Hunknown. unfold onMessage.
  rewrite !not_elem_of_cons in Hunknown.
  destruct Hunknown as (H1 & H2 & H3 & H4 & _).
  apply String.eqb_neq in H1, H2, H3, H4.
  by rewrite H1, H2, H3, H4.
Qed.

Lemma unknown_command_ignored_witness :
  onMessage "CLEAR_ALL_CACHES" [7%nat] (Examples.offline 10)
            (Examples.world Examples.seeded 0)
  = (Returned tt, Examples.world Examples.seeded 0).
Proof.
  apply unknown_command_ignored.
  rewrite !not_elem_of_cons. repeat split; try discriminate.
  apply not_elem_of_nil.
Defined.

(** X14.  Without a reply port on the event the two replying commands
    throw when they come to reply: the cache-info command changes nothing,
    and the update-check command has run its check by then. *)
Theorem replying_commands_need_a_port (env : Env) (w : World) :
  (∃ error, onMessage "GET_CACHE_INFO" [] env w = (Thrown error, w))
  ∧ (∃ error,
       onMessage "CHECK_UPDATE" [] env w
       = (Thrown error, (checkForUpdates env w).2)).
Proof.
  unfold onMessage. cbn [String.eqb Ascii.eqb Bool.eqb]. split.
  - by eexists.
  - unfold mbind, async_bind.
    destruct (checkForUpdates_run env w) as (Hret & _).
    destruct (checkForUpdates env w) as [o w']. cbn in Hret. subst o.
    by eexists.
Qed.

End ControlChannelEdges.

(* ===================================================================== *)
(** ** More about the lifecycle *)
(* ===================================================================== *)

Section Lifecycle.
Context `{DateCodec}.
Import Store StoreFacts.

Lemma activate_caches (env : Env) (w : World) :
  caches (activate env w).2
  = filter (λ p, p.1 ∈ [CACHE_NAME; STATIC_CACHE; API_CACHE; OFFLINE_CACHE])
           (caches w).
Proof.
  unfold activate. unfold mbind, async_bind at 1.
  rewrite prune_run. unfold mbind, async_bind at 1.
  unfold clients_claim, clients_matchAll, mbind, async_bind at 1. cbn_world.
  by rewrite (for_each_postMessage (λ now, SW_ACTIVATED "3.0" (toISOString now))).
Qed.

(** X15.  Activation is idempotent on the store: activating again, with
    whatever clients, deletes nothing more. *)
Theorem activate_idempotent (env1 env2 : Env) (w : World) :
  caches (activate env2 (activate env1 w).2).2 = caches (activate env1 w).2.
Proof.
  rewrite !activate_caches. by apply list_filter_filter_l.
Qed.

(** Every lookup after an installation, in terms of the lookups before. *)
Lemma install_lookup (env : Env) (w : World) (name key : string) :
  match_in name key (caches (install env w).2)
  = if manifest_cacheable env
    then if bool_decide (name = OFFLINE_CACHE
                         ∧ cache_key key
                           = cache_key (resolve env "./offline.html"))
         then Some offlineResponse
         else if bool_decide (name = STATIC_CACHE)
         then match lookup_entry key (answers env STATIC_ASSETS) with
              | Some r => Some r
              | None => match_in name key (caches w)
              end
         else match_in name key (caches w)
    else match_in name key (caches w).
Proof.
  destruct (manifest_cacheable env) eqn:Hmanifest.
  - destruct (install_caches env w Hmanifest)
      as (seeded & -> & _ & Hcaches).
    destruct (manifest_keys env Hmanifest) as [Hall Hnodup].
    unfold skipWaiting. cbn_world. rewrite Hcaches.
    case_bool_decide as Hoff.
    { destruct Hoff as [-> Hkey]. rewrite (match_in_key _ _ _ _ Hkey).
      apply match_in_put_eq, find_cache_put_all_is_Some, find_cache_open. }
    rewrite match_in_put_ne
      by (destruct (decide (OFFLINE_CACHE = name)); [right|by left];
          intros Hkey; by apply Hoff).
    case_bool_decide as Hst.
    + subst name.
      rewrite match_in_put_all by (apply static_cache_opened || done).
      destruct (lookup_entry _ _); [done|]. by rewrite !match_in_open.
    + rewrite match_in_put_all_out by (left; congruence).
      by rewrite !match_in_open.
  - by destruct (install_fails env w Hmanifest) as (_ & _ & Hsame).
Qed.

(** X16.  What an installation leaves in the store.  When the manifest
    cannot be stored in full, every lookup is as before.  When it can, the
    offline page is under its key in the offline partition, every manifest
    URL reads as the answer the network gave for it in the static
    partition, and every other lookup, in any partition, is as before; a
    URL reads as the URL without its fragment does. *)
Theorem install_store_effect (env : Env) (w : World) (name key : string) :
  let after := match_in name key (caches (install env w).2) in
  let before := match_in name key (caches w) in
  let manifest := resolve env <$> STATIC_ASSETS in
  if manifest_cacheable env
  then (name = OFFLINE_CACHE
        ∧ cache_key key = cache_key (resolve env "./offline.html")
        ∧ after = Some offlineResponse)
       ∨ (name = STATIC_CACHE
          ∧ ∃ url r, url ∈ manifest
                     ∧ cache_key key = cache_key url
                     ∧ network env url = NetResponse r
                     ∧ ok r = true
                     ∧ after = Some r)
       ∨ (¬ (name = OFFLINE_CACHE
             ∧ cache_key key = cache_key (resolve env "./offline.html"))
          ∧ ¬ (name = STATIC_CACHE ∧ cache_key key ∈ cache_key <$> manifest)
          ∧ after = before)
  else after = before.
Proof.
  intros after before manifest. subst after before manifest.
  rewrite install_lookup.
  destruct (manifest_cacheable env) eqn:Hmanifest; [|done].
  destruct (manifest_keys env Hmanifest) as [Hall Hnodup].
  case_bool_decide as Hoff; [left; tauto|].
  case_bool_decide as Hst.
  - subst name. destruct (lookup_entry _ _) as [r|] eqn:Hentry.
    + right. left. split; [done|].
      apply lookup_entry_Some in Hentry as (k & Hin & Hk).
      apply answers_elem in Hin as (url & Hurl & -> & Hnet).
      exists (resolve env url), r.
      split; [by apply list_elem_of_fmap_2|]. split; [done|].
      split; [done|]. split; [|done].
      assert (cacheable env url = true) as Hok.
      { by apply (proj1 (forallb_forall _ _) Hall), list_elem_of_In. }
      unfold cacheable in Hok. rewrite Hnet in Hok.
      by apply andb_prop in Hok as [? _].
    + right. right. split; [done|]. split; [|done].
      apply lookup_entry_None in Hentry.
      rewrite answers_keys in Hentry by done. tauto.
  - right. right. tauto.
Qed.

(** X17.  Installation is idempotent under retry: installing a second time
    against the same network leaves every lookup as the first time did. *)
Theorem install_idempotent (env : Env) (w : World) (name key : string) :
  match_in name key (caches (install env (install env w).2).2)
  = match_in name key (caches (install env w).2).
Proof.
  rewrite (install_lookup env (install env w).2).
  rewrite (install_lookup env w).
  destruct (manifest_cacheable env); [|done].
  repeat case_bool_decide; [done|by destruct (lookup_entry _ _)|done].
Qed.

(** X18.  After a successful installation and an activation, a navigation
    that finds the network down is always answered with a response, for any
    request and whatever the store held before. *)
Theorem installed_worker_answers_offline (env0 env1 env2 : Env) (w : World)
    (request : Request) :
  manifest_cacheable env0 = true →
  resolve env2 "./offline.html" = resolve env0 "./offline.html" →
  (∃ e, network env2 (request_url request) = NetError e) →
  ∃ r, (handleNavigation request env2 (activate env1 (install env0 w).2).2).1
       = Returned (Some r).
Proof.
  intros Hfetch Hbase [e Hdown].
  assert (match_in OFFLINE_CACHE (resolve env2 "./offline.html")
                   (caches (activate env1 (install env0 w).2).2)
          = Some offlineResponse) as Hseed.
  { rewrite activate_caches. unfold match_in.
    rewrite find_cache_filter_allow by set_solver.
    fold (match_in OFFLINE_CACHE (resolve env2 "./offline.html")
                   (caches (install env0 w).2)).
    rewrite install_lookup, Hfetch, Hbase.
    by rewrite bool_decide_eq_true_2. }
  unfold handleNavigation. run_async. rewrite Hdown. cbn_world.
  destruct (match_request_any _ _) as [c|]; cbn_world; [by exists c|].
  exists offlineResponse. by rewrite match_in_open, Hseed.
Qed.

End Lifecycle.

(* ===================================================================== *)
(** ** Push notifications, clicks and background sync *)
(* ===================================================================== *)

Section Notifications.
Import Push.

Lemma choose_truthy (v : option Value) (fallback : string) :
  fallback ≠ "" → truthy (choose v fallback) = true.
Proof.
  intros Hfallback%String.eqb_neq. unfold choose, text_value.
  destruct v as [x|]; [destruct (truthy x) eqn:Hx|]; cbn; by rewrite ?Hfallback.
Qed.

Lemma choose_idem (v : option Value) (fallback : string) :
  fallback ≠ "" → choose (Some (choose v fallback)) fallback = choose v fallback.
Proof.
  intros Hfallback. unfold choose at 1. by rewrite choose_truthy.
Qed.



(** The empty array as the title of a payload: the notification has an
    empty title. *)
Example push_title_can_be_blank :
  fst <$> onPush (Some (mkPushMessageData "(json)"
                          (Document {| p_title := Some (mkValue true "");
                                       p_body := None; p_url := None;
                                       p_type := None; p_image := None;
                                       p_important := None |}))) 0
  = Some "".
Proof. reflexivity. Qed.

(** X20.  A click on a notification that a readable push produced never
    throws, provided windows can be opened; unless the action is [view] or
    [dismiss] it opens the URL of the payload, or the root of the
    application when the payload has none. *)
Theorem click_on_pushed_notification (d : PushMessageData) (p : Payload)
    (now : Z) (title : string) (options : NotificationOptions)
    (action : string) (windowClients : list WindowClient) :
  json d = Document p →
  onPush (Some d) now = Some (title, options) →
  ∃ effect,
    onNotificationClick action (o_data options) windowClients true
    = (true, Returned effect)
    ∧ (action ≠ "view" → action ≠ "dismiss" →
       effect = Opened (or_else (p_url p) "./")).
Proof.
  intros Hjson Hpush. unfold onPush in Hpush. rewrite Hjson in Hpush.
  injection Hpush as <- <-. cbn [o_data]. unfold onNotificationClick.
  assert (or_else (Some (choose (p_url p) "./")) "./" = or_else (p_url p) "./")
    as Hurl.
  { unfold or_else. by rewrite choose_idem. }
  destruct (String.eqb action "view") eqn:Hview.
  - apply String.eqb_eq in Hview.
    match goal with
    | |- context [focus_existing ?data windowClients] =>
        assert (∃ found, focus_existing data windowClients = Returned found)
          as [found ->]
    end.
    { induction windowClients as [|c cs IH]; cbn; [by eexists|].
      destruct (_ && _); [by eexists|done]. }
    destruct found as [c|]; eexists; (split; [reflexivity|]); by intros.
  - destruct (String.eqb action "dismiss") eqn:Hdismiss.
    + apply String.eqb_eq in Hdismiss. eexists. split; [done|]. by intros.
    + eexists. split; [reflexivity|]. intros _ _.
      exact (f_equal Opened Hurl).
Qed.

(** X21.  A click on the plain notification of an unreadable push throws
    for every action but [dismiss]: the notification carries no data, and
    the listener reads the URL of the data. *)
Theorem click_on_fallback_notification (d : PushMessageData) (now : Z)
    (title : string) (options : NotificationOptions) (action : string)
    (windowClients : list WindowClient) :
  json d = Malformed ∨ json d = Null →
  onPush (Some d) now = Some (title, options) →
  action ≠ "dismiss" →
  ∃ error,
    onNotificationClick action (o_data options) windowClients true
    = (true, Thrown error).
Proof.
  intros Hjson Hpush Haction. unfold onPush in Hpush.
  assert (o_data options = None) as ->.
  { destruct Hjson as [Hj|Hj]; rewrite Hj in Hpush; by injection Hpush as <- <-. }
  unfold onNotificationClick. apply String.eqb_neq in Haction. rewrite Haction.
  destruct (String.eqb action "view"); [|by eexists].
  destruct windowClients as [|c cs]; by eexists.
Qed.

(** X22.  The [view] action focuses the first window client, in the order
    of [matchAll], whose URL contains the URL of the notification and which
    can be focused, and opens no window then; without such a client it opens
    the URL of the notification when windows can be opened and does nothing
    otherwise. *)
Theorem view_focuses_first_match (nd : NotificationData)
    (before : list WindowClient) (client : WindowClient)
    (after : list WindowClient) (canOpenWindow : bool) :
  Forall (λ c, JS.includes (client_url c) (data_url nd) && has_focus_method c
               = false) before →
  (JS.includes (client_url client) (data_url nd) && has_focus_method client
   = true →
   onNotificationClick "view" (Some nd) (before ++ client :: after) canOpenWindow
   = (true, Returned (Focused client)))
  ∧ onNotificationClick "view" (Some nd) before canOpenWindow
    = (true, if canOpenWindow
             then Returned (Opened (or_else (Some (data_url nd)) "./"))
             else Returned Nothing).
Proof.
  intros Hbefore. unfold onNotificationClick. cbn [String.eqb Ascii.eqb Bool.eqb].
  split.
  - intros Hclient.
    assert (focus_existing (Some nd) (before ++ client :: after)
            = Returned (Some client)) as ->; [|done].
    induction Hbefore as [|c cs Hc _ IH]; cbn.
    + by rewrite Hclient.
    + by rewrite Hc.
  - assert (focus_existing (Some nd) before = Returned None) as ->.
    { induction Hbefore as [|c cs Hc _ IH]; cbn; [done|]. by rewrite Hc. }
    unfold open_target. cbn. by destruct canOpenWindow.
Qed.

(** X23.  Background sync does nothing yet: for every tag the listener
    completes without touching the store, the network or the clients, the
    queue helpers being the placeholders of the source (no pending message
    is ever listed, so none is sent). *)
Theorem background_sync_is_a_no_op (tag : string) (env : Env) (w : World) :
  Sync.onSync tag env w = (Returned tt, w).
Proof.
  unfold Sync.onSync.
  destruct (String.eqb tag "sync-updates"), (String.eqb tag "sync-messages");
    reflexivity.
Qed.

End Notifications.

Section Rejections.
Context `{DateCodec}.
Import Store StoreFacts Router.

(** X24.  Which requests can fail with an exception.  The navigation, the
    stale-while-revalidate and the cache-first executors never reject.  The
    time-windowed executor rejects exactly on a cold miss whose fetch
    fails, is answered with a status that is not [ok], or is answered with
    a response that the cache refuses to store. *)
Theorem executor_rejects_iff (s : Strategy) (request : Request) (env : Env)
    (w : World) :
  (∃ error, (executor s request env w).1 = Thrown error)
  ↔ s = TimeWindowedRefresh
    ∧ match_request_in API_CACHE request (caches w) = None
    ∧ match network env (request_url request) with
      | NetResponse r => ok r && storable request r
      | NetError _ => false
      end = false.
Proof.
  destruct s; cbn [executor].
  - split; [|by intros [? _]]. intros [error Herr]. exfalso. revert Herr.
    unfold handleNavigation. run_async. repeat case_step; done.
  - unfold handleGoogleScript. run_async. rewrite match_request_in_open.
    destruct (match_request_in API_CACHE _ _) as [c|]; cbn_world.
    + split; [|by intros (_ & ? & _)]. intros [error Herr]. exfalso.
      revert Herr. repeat case_step; done.
    + destruct (network env (request_url request)) as [r|e]; cbn_world.
      * destruct (ok r); cbn_world.
        -- rewrite storable_with_cached_time.
           destruct (storable request r); cbn_world.
           ++ split; [by intros [? ?]|by intros (_ & _ & ?)].
           ++ split; [done|by eexists].
        -- split; [done|by eexists].
      * split; [done|by eexists].
  - split; [|by intros [? _]]. intros [error Herr]. exfalso. revert Herr.
    unfold staleWhileRevalidate. run_async.
    repeat case_step; rewrite ?notifyAboutUpdate_run; done.
  - split; [|by intros [? _]]. intros [error Herr]. exfalso. revert Herr.
    unfold cacheFirstWithUpdate. run_async. repeat case_step; done.
Qed.

End Rejections.

(* ===================================================================== *)
(** ** Sample runs *)
(* ===================================================================== *)

Lemma visited_page_served_offline_witness :
  (handleNavigation (Examples.get "https://cfm.example/horarios" "navigate")
     (Examples.offline 10)
     (handleNavigation (Examples.get "https://cfm.example/horarios" "navigate")
        (Examples.online Examples.page_200 5) (Examples.world [] 0)).2).1
  = Returned (Some Examples.page_200).
Proof.
  exact (visited_page_served_offline
           (Examples.get "https://cfm.example/horarios" "navigate")
           (Examples.online Examples.page_200 5) (Examples.offline 10)
           (Examples.world [] 0) Examples.page_200 eq_refl eq_refl eq_refl
           eq_refl (ex_intro _ "TypeError: Failed to fetch" eq_refl)).
Defined.

Lemma staleWhileRevalidate_cold_miss_witness :
  (staleWhileRevalidate
     (Examples.get "https://api.cfm.example/api/trains" "cors")
     (Examples.offline 10) (Examples.world [] 0)).1
  = Returned None.
Proof.
  exact (proj1 (proj2 (staleWhileRevalidate_cold_miss
           (Examples.get "https://api.cfm.example/api/trains" "cors")
           (Examples.offline 10) (Examples.world [] 0) eq_refl))).
Defined.

Lemma handleGoogleScript_cold_miss_witness :
  (handleGoogleScript (Examples.get Examples.script_url "cors")
                      (Examples.offline 10) (Examples.world [] 0)).1
  = Thrown "TypeError: Failed to fetch".
Proof.
  exact (handleGoogleScript_cold_miss
           (Examples.get Examples.script_url "cors")
           (Examples.offline 10) (Examples.world [] 0) eq_refl).
Defined.

Lemma handleGoogleScript_keeps_last_good_witness :
  (handleGoogleScript (Examples.get Examples.script_url "cors")
                      (Examples.offline 90000000)
                      (Examples.world Examples.scripted 86400000)).1
  = Returned (Some (with_cached_time Examples.json_200 1000)).
Proof.
  exact (proj2 (handleGoogleScript_keeps_last_good
                  (Examples.get Examples.script_url "cors")
                  (Examples.offline 90000000)
                  (Examples.world Examples.scripted 86400000) eq_refl)
               (with_cached_time Examples.json_200 1000) eq_refl).
Defined.

Lemma time_window_edges_witness :
  (handleGoogleScript (Examples.get Examples.script_url "cors")
                      (Examples.offline 600)
                      (Examples.world Examples.scripted 500)).1
  = Returned (Some (with_cached_time Examples.json_200 1000)).
Proof.
  exact (proj1 (proj1 (time_window_edges
                  (Examples.get Examples.script_url "cors")
                  (Examples.offline 600)
                  (Examples.world Examples.scripted 500)
                  (with_cached_time Examples.json_200 1000) eq_refl)
               1000 eq_refl eq_refl)).
Defined.

Lemma cacheFirst_hit_witness :
  (cacheFirstWithUpdate
     (Examples.get "https://cfm.example/./index.html" "no-cors")
     (Examples.offline 10) (Examples.world Examples.seeded 0)).1
  = Returned (Some Examples.page_200).
Proof.
  exact (proj1 (cacheFirst_hit
           (Examples.get "https://cfm.example/./index.html" "no-cors")
           (Examples.offline 10) (Examples.world Examples.seeded 0)
           Examples.page_200 eq_refl)).
Defined.

Lemma installed_worker_answers_offline_witness :
  ∃ r, (handleNavigation
          (Examples.get "https://cfm.example/horarios" "navigate")
          (Examples.offline 20)
          (activate (Examples.online Examples.page_200 8)
             (install (Examples.online Examples.page_200 5)
                      (Examples.world [] 0)).2).2).1
       = Returned (Some r).
Proof.
  exact (installed_worker_answers_offline
           (Examples.online Examples.page_200 5)
           (Examples.online Examples.page_200 8) (Examples.offline 20)
           (Examples.world [] 0)
           (Examples.get "https://cfm.example/horarios" "navigate")
           eq_refl eq_refl (ex_intro _ "TypeError: Failed to fetch" eq_refl)).
Defined.

Lemma click_on_pushed_notification_witness :
  ∃ effect,
    Push.onNotificationClick "open"
      (Some (Push.mkData (Push.text_value "./horarios") 5
                         (Push.text_value "update")))
      [Samples.home_tab] true
    = (true, Returned effect)
    ∧ ("open" ≠ "view" → "open" ≠ "dismiss" → effect = Push.Opened "./horarios").
Proof.
  exact (click_on_pushed_notification Samples.delay_push
           (Samples.payload (Some "Atraso") None (Some "./horarios")) 5
           _ _ "open" [Samples.home_tab] eq_refl eq_refl).
Defined.

Lemma click_on_fallback_notification_witness :
  ∃ error,
    Push.onNotificationClick "view" None [Samples.home_tab] true
    = (true, Thrown error).
Proof.
  refine (click_on_fallback_notification Samples.garbled_push 5 _ _ "view"
            [Samples.home_tab] (or_introl eq_refl) eq_refl _).
  discriminate.
Defined.

Lemma view_focuses_first_match_witness :
  Push.onNotificationClick "view"
    (Some (Push.mkData (Push.text_value "horarios") 0 (Push.text_value "update")))
    [Samples.home_tab; Samples.timetable_tab] true
  = (true, Returned (Push.Focused Samples.timetable_tab)).
Proof.
  refine (proj1 (view_focuses_first_match
                   (Push.mkData (Push.text_value "horarios") 0
                                (Push.text_value "update"))
                   [Samples.home_tab] Samples.timetable_tab [] true _) eq_refl).
  repeat constructor.
Defined.
